(** * zenon-node-monitor: the fork monitor of [monitor.py]

    A shallow embedding of [ForkMonitor]: the per-node record, the
    disconnection routine, the health check, the bounded momentum buffer,
    one iteration of the [monitor_node] loop and the cross-node fork check,
    the snapshot endpoint, [cleanup] and the settings of [config.py],
    followed by the properties the specification states about them and
    further properties read off the code.

    Conventions.
    - [self.nodes] is a Python dict, which iterates in insertion order and
      has unique keys: it is an association list here, in that order.
    - [time.time()] and the timestamps are IEEE binary64 numbers, as in
      Python: primitive floats.
    - Every [await] is answered by the environment.  The answers (a frame, an
      exception, a clock reading, the shutdown flag) are arguments of the
      functions, and the functions are deterministic in them.
    - Methods run in an exception-and-state monad: a raised exception keeps
      the mutations done before it, as in Python.
    - A logger call appends one structured record to the trace: the level and
      the interpolated values of the f-string.
    - [websocket.close()] and the logger are taken to return normally. *)

From Stdlib Require Import ZArith Uint63 Floats Ascii.
From stdpp Require Import gmap strings list.

Local Open Scope Z_scope.
Set Warnings "-register-all".

(** ** JSON values, as [json.loads] returns them *)

Inductive json :=
| JNull
| JBool (b : bool)
| JInt (z : Z)
| JFloat (f : float)
| JString (s : string)
| JArray (l : list json)
| JObject (l : list (string * json)).

(** A received text frame together with what [json.loads] makes of it
    ([None]: it raises [JSONDecodeError]). *)
Record frame := mkFrame { text : string; loads : option json }.

(** ** Data model (monitor.py, lines 27-42) *)

Record Momentum := mkMomentum {
  height : Z;
  hash : string;
  timestamp : float;
  is_stale : bool
}.

(** A transport handle is known by its identity. *)
Definition socket := nat.

Record NodeState := mkNodeState {
  websocket : option socket;
  subscription_id : option json;
  last_height : option Z;
  last_hash : option string;
  is_connected : bool;
  last_message_time : float;
  momentums : list Momentum
}.

(** [NodeState()]: the dataclass defaults. *)
Definition NodeState_default : NodeState :=
  mkNodeState None None None None false 0%float [].

(** ** Exceptions, log records, trace *)

Inductive exn :=
| ConnectionClosed
| TimeoutError
| JSONDecodeError
| KeyError
| IndexError
| TypeError
| AttributeError
| TransportError.

Inductive level := INFO | WARNING | ERROR.

(** One constructor per logger call of the modelled methods. *)
Inductive message :=
| Attempting (node_name : string)
| SendingSubscription (node_name : string)
| ReceivedAck (node_name : string) (response : string)
| Subscribed (node_name : string) (result : json)
| NoSubscriptionId (node_name : string) (response : string)
| AckTimeout (node_name : string)
| ConnectError (node_name : string) (e : exn)
| NoMessages (node_name : string) (timeout : Z)
| ShutdownSignal (node_name : string)
| Processed (node_name : string) (h : Z) (x : string)
| UnexpectedFormat (node_name : string) (response : string)
| ClosedReconnect (node_name : string)
| MonitorError (node_name : string) (e : exn)
| LostConnection
| WaitingForData
| DifferentHeights
| NodeHeight (node_name : string) (h : option Z)
| HeightHash (h : option Z) (x : option string)
| ForkDetected
| NodeStatus (node_name : string) (h : option Z) (x : option string).

Inductive event :=
| Logged (lv : level) (m : message)
| Slept (seconds : Z).

(** ** The monitor and its world *)

Definition registry := list (string * NodeState).

Record state := mkState {
  nodes : registry;          (* self.nodes *)
  closed : gset socket;      (* handles whose [.closed] is True *)
  trace : list event         (* what was logged and slept, oldest first *)
}.

Definition set_nodes (r : registry) (s : state) : state :=
  mkState r (closed s) (trace s).
Definition set_closed (c : gset socket) (s : state) : state :=
  mkState (nodes s) c (trace s).
Definition emit (es : list event) (s : state) : state :=
  mkState (nodes s) (closed s) (trace s ++ es).

(** [ForkMonitor.__init__] (lines 45-50). *)
Definition init_nodes : registry :=
  [("hc1", NodeState_default);
   ("zenonhub", NodeState_default);
   ("atsocy", NodeState_default)]%string.

Definition init : state := mkState init_nodes ∅ [].

(** Config.MESSAGE_TIMEOUT (config.py, line 14). *)
Definition MESSAGE_TIMEOUT : Z := 30.

(** ** Dict access *)

Fixpoint assoc {A} (k : string) (l : list (string * A)) : option A :=
  match l with
  | [] => None
  | (k', v) :: t => if decide (k = k') then Some v else assoc k t
  end.

Fixpoint assoc_alter {A} (f : A → A) (k : string) (l : list (string * A))
  : list (string * A) :=
  match l with
  | [] => []
  | (k', v) :: t =>
      if decide (k = k') then (k', f v) :: t else (k', v) :: assoc_alter f k t
  end.

Definition values {A} (l : list (string * A)) : list A := l.*2.

(** ** The exception-and-state monad *)

(** How a call ends: it returns a value, it raises, or it would store a
    value of a type the dataclass fields do not declare (see [expect_int]),
    which the typed records here cannot hold. *)
Inductive outcome (A : Type) :=
| Ok (a : A)
| Raise (e : exn)
| Unmodelled.
Arguments Ok {A} a.
Arguments Raise {A} e.
Arguments Unmodelled {A}.

Definition M (A : Type) : Type := state → outcome A * state.

Definition ret {A} (a : A) : M A := λ s, (Ok a, s).

Definition bind {A B} (m : M A) (f : A → M B) : M B := λ s,
  match m s with
  | (Ok a, s') => f a s'
  | (Raise e, s') => (Raise e, s')
  | (Unmodelled, s') => (Unmodelled, s')
  end.

Declare Scope py_scope.
Delimit Scope py_scope with py.
Notation "x ← y ; z" := (bind y (λ x : _, z))
  (at level 20, y at level 100, z at level 200, only parsing) : py_scope.
Notation "x ;; z" := (bind x (λ _, z))
  (at level 100, z at level 200, only parsing, right associativity) : py_scope.
Local Open Scope py_scope.

Definition raise {A} (e : exn) : M A := λ s, (Raise e, s).
Definition unmodelled {A} : M A := λ s, (Unmodelled, s).

(** [try: body except ...: handler]; [handler e = None] when no clause
    matches [e]. *)
Definition try_except {A} (body : M A) (handler : exn → option (M A)) : M A :=
  λ s,
    match body s with
    | (Raise e, s') =>
        match handler e with
        | Some h => h s'
        | None => (Raise e, s')
        end
    | r => r
    end.

Definition gets {A} (f : state → A) : M A := λ s, (Ok (f s), s).
Definition modify (f : state → state) : M unit := λ s, (Ok tt, f s).

Definition for_each {A} (l : list A) (f : A → M unit) : M unit :=
  foldr (λ x k, f x ;; k) (ret tt) l.

Definition logger (lv : level) (m : message) : M unit :=
  modify (emit [Logged lv m]).

(** [await asyncio.sleep(seconds)]. *)
Definition sleep (seconds : Z) : M unit := modify (emit [Slept seconds]).

(** [self.nodes[node_name]]. *)
Definition node (node_name : string) : M NodeState :=
  r ← gets nodes;
  match assoc node_name r with
  | Some n => ret n
  | None => raise KeyError
  end.

(** [self.nodes[node_name].field = v], as an update [f] of the record. *)
Definition update (node_name : string) (f : NodeState → NodeState) : M unit :=
  node node_name ;;
  modify (λ s, set_nodes (assoc_alter f node_name (nodes s)) s).

Definition set_websocket (w : option socket) (n : NodeState) : NodeState :=
  mkNodeState w (subscription_id n) (last_height n) (last_hash n)
    (is_connected n) (last_message_time n) (momentums n).
Definition set_subscription_id (i : option json) (n : NodeState) : NodeState :=
  mkNodeState (websocket n) i (last_height n) (last_hash n)
    (is_connected n) (last_message_time n) (momentums n).
Definition set_last_height (h : option Z) (n : NodeState) : NodeState :=
  mkNodeState (websocket n) (subscription_id n) h (last_hash n)
    (is_connected n) (last_message_time n) (momentums n).
Definition set_last_hash (x : option string) (n : NodeState) : NodeState :=
  mkNodeState (websocket n) (subscription_id n) (last_height n) x
    (is_connected n) (last_message_time n) (momentums n).
Definition set_is_connected (b : bool) (n : NodeState) : NodeState :=
  mkNodeState (websocket n) (subscription_id n) (last_height n) (last_hash n)
    b (last_message_time n) (momentums n).
Definition set_last_message_time (t : float) (n : NodeState) : NodeState :=
  mkNodeState (websocket n) (subscription_id n) (last_height n) (last_hash n)
    (is_connected n) t (momentums n).
Definition set_momentums (l : list Momentum) (n : NodeState) : NodeState :=
  mkNodeState (websocket n) (subscription_id n) (last_height n) (last_hash n)
    (is_connected n) (last_message_time n) l.

(** ** check_for_fork (lines 244-281) *)

Definition no_data (n : NodeState) : bool :=
  bool_decide (last_height n = None) || bool_decide (last_hash n = None).

(** Line 271-274: every node's [last_hash] is the reference hash. *)
Definition all_same (reference_hash : option string) (r : registry) : bool :=
  forallb (λ n, bool_decide (last_hash n = reference_hash)) (values r).

Definition check_for_fork : M unit :=
  r ← gets nodes ;
  if negb (forallb is_connected (values r)) then
    logger WARNING LostConnection
  else if existsb no_data (values r) then
    logger INFO WaitingForData
  else
    let heights := (λ kv : string * NodeState, (kv.1, last_height kv.2)) <$> r in
    if bool_decide (1 < size (list_to_set (values heights) : gset (option Z)))%nat then
      logger INFO DifferentHeights ;;
      for_each heights (λ kv, logger INFO (NodeHeight kv.1 kv.2))
    else
      hc1 ← node "hc1" ;
      let reference_height := last_height hc1 in
      let reference_hash := last_hash hc1 in
      if all_same reference_hash r then
        logger INFO (HeightHash reference_height reference_hash)
      else
        logger WARNING ForkDetected ;;
        for_each r (λ kv,
          logger WARNING (NodeStatus kv.1 (last_height kv.2) (last_hash kv.2))).

(** ** handle_disconnection (lines 163-174) *)

Definition mark_stale (m : Momentum) : Momentum :=
  mkMomentum (height m) (hash m) (timestamp m) true.

(** [await websocket.close()]: afterwards [.closed] is True. *)
Definition close (h : socket) : M unit :=
  modify (λ s, set_closed ({[h]} ∪ closed s) s).

Definition handle_disconnection (node_name : string) : M unit :=
  node node_name ;;
  update node_name (set_is_connected false) ;;
  update node_name (set_subscription_id None) ;;
  n ← node node_name ;
  c ← gets closed ;
  match websocket n with
  | Some h => if negb (bool_decide (h ∈ c)) then close h else ret tt
  | None => ret tt
  end ;;
  update node_name (set_websocket None) ;;
  match momentums n with
  | [] => ret tt
  | _ => update node_name (λ n, set_momentums (mark_stale <$> momentums n) n)
  end.

(** ** check_connection_health (lines 176-184); [now] is [time.time()] *)

(** [current_time - last_message_time > self.message_timeout]; the
    timeout is the integer 30, which binary64 holds exactly. *)
Definition timed_out (now last : float) : bool :=
  PrimFloat.ltb (PrimFloat.of_uint63 (Uint63.of_Z MESSAGE_TIMEOUT))
    (PrimFloat.sub now last).

Definition check_connection_health (node_name : string) (now : float) : M unit :=
  n ← node node_name ;
  if negb (is_connected n) then ret tt
  else if timed_out now (last_message_time n) then
    logger WARNING (NoMessages node_name MESSAGE_TIMEOUT) ;;
    handle_disconnection node_name
  else ret tt.

(** ** update_momentums (lines 115-121); [now] is [time.time()] *)

(** [l[-k:]] *)
Definition last_items {A} (k : nat) (l : list A) : list A :=
  drop (length l - k) l.

Definition update_momentums (node_name : string) (h : Z) (x : string)
    (now : float) : M unit :=
  node node_name ;;
  update node_name
    (λ n, set_momentums (momentums n ++ [mkMomentum h x now false]) n) ;;
  n ← node node_name ;
  if bool_decide (5 < length (momentums n))%nat then
    update node_name (λ n, set_momentums (last_items 5 (momentums n)) n)
  else ret tt.

(** ** Python's [in], [d[key]] and [d[0]] on decoded JSON *)

Fixpoint contains (needle hay : string) : bool :=
  String.prefix needle hay ||
  match hay with
  | EmptyString => false
  | String _ rest => contains needle rest
  end.

Definition is_str (key : string) (j : json) : bool :=
  match j with JString s => bool_decide (s = key) | _ => false end.

(** [key in data] *)
Definition py_in (key : string) (data : json) : M bool :=
  match data with
  | JObject kvs => ret (bool_decide (key ∈ kvs.*1))
  | JArray l => ret (existsb (is_str key) l)
  | JString s => ret (contains key s)
  | _ => raise TypeError
  end.

(** [data[key]] for a string [key] *)
Definition py_getitem (data : json) (key : string) : M json :=
  match data with
  | JObject kvs =>
      match assoc key kvs with
      | Some v => ret v
      | None => raise KeyError
      end
  | _ => raise TypeError
  end.

(** [data[0]] *)
Definition py_first (data : json) : M json :=
  match data with
  | JArray (v :: _) => ret v
  | JArray [] => raise IndexError
  | JString (String c _) => ret (JString (String c EmptyString))
  | JString EmptyString => raise IndexError
  | JObject _ => raise KeyError
  | _ => raise TypeError
  end.

Definition json_loads (fr : frame) : M json :=
  match loads fr with
  | Some j => ret j
  | None => raise JSONDecodeError
  end.

(** The fields are declared [Optional[int]] and [Optional[str]], and
    [Momentum.height : int], [Momentum.hash : str].  A payload that would
    store a value of another type is outside the model. *)
Definition expect_int (j : json) : M Z :=
  match j with JInt z => ret z | _ => unmodelled end.
Definition expect_str (j : json) : M string :=
  match j with JString s => ret s | _ => unmodelled end.

(** [None] is JSON's null. *)
Definition py_optional (j : json) : option json :=
  match j with JNull => None | _ => Some j end.

(** The answer of an [await]: an exception or a value. *)
Definition await {A} (r : exn + A) : M A :=
  match r with
  | inl e => raise e
  | inr a => ret a
  end.

(** ** connect_node (lines 123-161) *)

Record connect_env := mkConnectEnv {
  opened : exn + socket;       (* websockets.connect(...) *)
  sent : exn + unit;           (* websocket.send(subscribe_message) *)
  ack : exn + frame;           (* wait_for(websocket.recv(), timeout=10) *)
  ack_time : float             (* time.time() at line 147 *)
}.

Definition connect_node (node_name : string) (env : connect_env) : M unit :=
  try_except
    (logger INFO (Attempting node_name) ;;
     h ← await (opened env) ;
     update node_name (set_websocket (Some h)) ;;
     logger INFO (SendingSubscription node_name) ;;
     n ← node node_name ;
     match websocket n with
     | Some _ => await (sent env)
     | None => raise AttributeError
     end ;;
     try_except
       (response ← await (ack env) ;
        response_data ← json_loads response ;
        logger INFO (ReceivedAck node_name (text response)) ;;
        has_result ← py_in "result" response_data ;
        if has_result then
          result ← py_getitem response_data "result" ;
          update node_name (set_subscription_id (py_optional result)) ;;
          update node_name (set_is_connected true) ;;
          update node_name (set_last_message_time (ack_time env)) ;;
          logger INFO (Subscribed node_name result)
        else
          logger ERROR (NoSubscriptionId node_name (text response)) ;;
          update node_name (set_is_connected false) ;;
          handle_disconnection node_name)
       (λ e, match e with
             | TimeoutError =>
                 Some (logger ERROR (AckTimeout node_name) ;;
                       update node_name (set_is_connected false) ;;
                       handle_disconnection node_name)
             | _ => None
             end))
    (λ e, Some (logger ERROR (ConnectError node_name e) ;;
                update node_name (set_is_connected false) ;;
                handle_disconnection node_name)).

(** ** monitor_node (lines 194-242): one pass through the loop body *)

Record round_env := mkRoundEnv {
  shutdown_at_top : bool;      (* shutdown_event.is_set(), line 198 *)
  connecting : connect_env;    (* the awaits of connect_node *)
  health_time : float;         (* time.time(), line 181 *)
  received : exn + frame;      (* wait_for(websocket.recv(), timeout=1.0) *)
  received_time : float;       (* time.time(), line 218 *)
  momentum_time : float;       (* time.time(), line 118 *)
  shutdown_in_handler : bool   (* shutdown_event.is_set(), lines 234, 239 *)
}.

Inductive loop := Break | Continue.

(** Lines 213-229, inside the inner [try]. *)
Definition receive (node_name : string) (env : round_env) : M unit :=
  n ← node node_name ;
  response ← match websocket n with
              | Some _ => await (received env)
              | None => raise AttributeError
              end ;
  update node_name (set_last_message_time (received_time env)) ;;
  data ← json_loads response ;
  has_params ← py_in "params" data ;
  has_result ← (if has_params then
                   params ← py_getitem data "params" ;
                   py_in "result" params
                 else ret false) ;
  if has_result then
    params ← py_getitem data "params" ;
    result ← py_getitem params "result" ;
    momentum ← py_first result ;
    hv ← py_getitem momentum "height" ;
    h ← expect_int hv ;
    update node_name (set_last_height (Some h)) ;;
    xv ← py_getitem momentum "hash" ;
    x ← expect_str xv ;
    update node_name (set_last_hash (Some x)) ;;
    update_momentums node_name h x (momentum_time env) ;;
    logger INFO (Processed node_name h x) ;;
    check_for_fork
  else
    logger WARNING (UnexpectedFormat node_name (text response)).

Definition monitor_node_round (node_name : string) (env : round_env) : M loop :=
  try_except
    (if shutdown_at_top env then
       logger INFO (ShutdownSignal node_name) ;;
       ret Break
     else
       n ← node node_name ;
       go_on ← (if negb (is_connected n) then
                  connect_node node_name (connecting env) ;;
                  n ← node node_name ;
                  if negb (is_connected n) then sleep 5 ;; ret false
                  else ret true
                else ret true) ;
       if negb go_on then ret Continue
       else
         check_connection_health node_name (health_time env) ;;
         n ← node node_name ;
         if negb (is_connected n) then ret Continue
         else
           try_except
             (receive node_name env ;; ret Continue)
             (λ e, match e with
                   | TimeoutError => Some (ret Continue)
                   | _ => None
                   end))
    (λ e, match e with
          | ConnectionClosed =>
              Some (if negb (shutdown_in_handler env) then
                      logger WARNING (ClosedReconnect node_name) ;;
                      update node_name (set_is_connected false) ;;
                      sleep 5 ;;
                      ret Continue
                    else ret Continue)
          | _ =>
              Some (if negb (shutdown_in_handler env) then
                      logger ERROR (MonitorError node_name e) ;;
                      update node_name (set_is_connected false) ;;
                      sleep 5 ;;
                      ret Continue
                    else ret Continue)
          end).

(** The loop, driven by the environment's answers for each pass. *)
Fixpoint monitor_node (node_name : string) (envs : list round_env) : M unit :=
  match envs with
  | [] => ret tt
  | env :: rest =>
      c ← monitor_node_round node_name env ;
      match c with
      | Break => ret tt
      | Continue => monitor_node node_name rest
      end
  end.

(** ** The snapshot endpoint (lines 93-111) and cleanup (lines 186-192) *)

(** The logger calls of the two handlers that run beside the node tasks. *)
Inductive service_message :=
| NodesRequested
| ReturningNodes (count : nat)
| CleaningUp
| ClosedConnection (node_name : string).

(** The monitor together with the records of these handlers, which are
    kept in a list of their own, oldest first. *)
Record service := mkService {
  monitor : state;
  service_log : list (level * service_message)
}.

Definition service_logger (lv : level) (m : service_message) (sv : service)
  : service :=
  mkService (monitor sv) (service_log sv ++ [(lv, m)]).

(** The dict built for one momentum, lines 100-105. *)
Definition momentum_dict (m : Momentum) : json :=
  JObject [("height", JInt (height m));
           ("hash", JString (hash m));
           ("timestamp", JFloat (timestamp m));
           ("is_stale", JBool (is_stale m))].

(** The dict built for one node, lines 97-107. *)
Definition node_dict (n : NodeState) : json :=
  JObject [("is_connected", JBool (is_connected n));
           ("momentums", JArray (momentum_dict <$> last_items 5 (momentums n)))].

(** [get_nodes]: the returned dict and the service afterwards. *)
Definition get_nodes (sv : service) : json * service :=
  let sv := service_logger INFO NodesRequested sv in
  let data :=
    (λ kv : string * NodeState, (kv.1, node_dict kv.2)) <$> nodes (monitor sv) in
  let sv := service_logger INFO (ReturningNodes (length data)) sv in
  (JObject data, sv).

(** One turn of the loop of [cleanup], lines 190-192. *)
Definition cleanup_node (sv : service) (kv : string * NodeState) : service :=
  match websocket kv.2 with
  | Some h =>
      if negb (bool_decide (h ∈ closed (monitor sv))) then
        service_logger INFO (ClosedConnection kv.1)
          (mkService (set_closed ({[h]} ∪ closed (monitor sv)) (monitor sv))
                     (service_log sv))
      else sv
  | None => sv
  end.

Definition cleanup (sv : service) : service :=
  foldl cleanup_node (service_logger INFO CleaningUp sv) (nodes (monitor sv)).

(** ** config.py *)

(** [s.split(sep)] for a one-character separator. *)
Fixpoint split (sep : ascii) (s : string) : list string :=
  match s with
  | EmptyString => [EmptyString]
  | String c rest =>
      if Ascii.eqb c sep then EmptyString :: split sep rest
      else match split sep rest with
           | [] => [String c EmptyString]
           | w :: ws => String c w :: ws
           end
  end.

(** [os.getenv(key, default)] on the environment of the process. *)
Definition getenv (environ : gmap string string) (key default : string) : string :=
  match environ !! key with
  | Some v => v
  | None => default
  end.

(** The attributes of [Config] that are strings, lists of strings and
    numbers written in the file; [API_PORT], which parses a number, is left
    out. *)
Definition API_HOST (environ : gmap string string) : string :=
  getenv environ "API_HOST" "0.0.0.0".
Definition CORS_ORIGINS (environ : gmap string string) : list string :=
  split ","%char (getenv environ "CORS_ORIGINS" "*").
Definition WS_PING_INTERVAL : Z := 20.
Definition WS_PING_TIMEOUT : Z := 10.
Definition LOG_LEVEL (environ : gmap string string) : string :=
  getenv environ "LOG_LEVEL" "INFO".
Definition LOG_FILE (environ : gmap string string) : string :=
  getenv environ "LOG_FILE" "fork_monitor.log".


(** * Notions used in the statements *)

(** ** The fork check as a function of the registry alone *)

(** The lines of the loop at 262-263, and of the loop at 280-281. *)
Definition height_lines (r : registry) : list event :=
  (λ kv : string * option Z, Logged INFO (NodeHeight kv.1 kv.2)) <$>
    ((λ kv : string * NodeState, (kv.1, last_height kv.2)) <$> r).

Definition status_lines (r : registry) : list event :=
  (λ kv : string * NodeState,
     Logged WARNING (NodeStatus kv.1 (last_height kv.2) (last_hash kv.2))) <$> r.

Definition heights_of (r : registry) : list (option Z) :=
  values ((λ kv : string * NodeState, (kv.1, last_height kv.2)) <$> r).

(** What [check_for_fork] returns and logs, read off the registry. *)
Definition fork_report (r : registry) : outcome unit * list event :=
  if negb (forallb is_connected (values r)) then
    (Ok tt, [Logged WARNING LostConnection])
  else if existsb no_data (values r) then
    (Ok tt, [Logged INFO WaitingForData])
  else if bool_decide (1 < size (list_to_set (heights_of r) : gset (option Z)))%nat then
    (Ok tt, Logged INFO DifferentHeights :: height_lines r)
  else
    match assoc "hc1" r with
    | None => (Raise KeyError, [])
    | Some hc1 =>
        if all_same (last_hash hc1) r then
          (Ok tt, [Logged INFO (HeightHash (last_height hc1) (last_hash hc1))])
        else
          (Ok tt, Logged WARNING ForkDetected :: status_lines r)
    end.

(** ** Disconnection *)

(** The node record after disconnection handling. *)
Definition disconnected (n : NodeState) : NodeState :=
  mkNodeState None None (last_height n) (last_hash n) false
    (last_message_time n) (mark_stale <$> momentums n).

(** The transport after disconnection handling of a node holding [w]. *)
Definition closing (w : option socket) (c : gset socket) : gset socket :=
  match w with
  | Some h => {[h]} ∪ c
  | None => c
  end.

(** ** The momentum buffer *)

Definition within_bound (n : NodeState) : Prop := (length (momentums n) ≤ 5)%nat.

(** The node record after [update_momentums]. *)
Definition appended (h : Z) (x : string) (now : float) (n : NodeState) : NodeState :=
  let l := momentums n ++ [mkMomentum h x now false] in
  set_momentums (if bool_decide (5 < length l)%nat then last_items 5 l else l) n.

(** ** Invariants *)

(** [m] keeps [P]: whatever [m] returns or raises, the state it leaves
    satisfies [P] if the state it started from did. *)
Definition keeps (P : state → Prop) {A} (m : M A) : Prop :=
  ∀ s, P s → P (m s).2.

(** A property [Q] of every node of the registry. *)
Definition every (Q : NodeState → Prop) (s : state) : Prop :=
  Forall Q (values (nodes s)).

Definition bounded : state → Prop := every within_bound.


(** ** Executions *)

(** The states the monitor can be in.  The tasks interleave at their
    [await]s.  Between two of them a task writes fields other than
    [momentums], calls [update_momentums], marks its momentums stale or
    logs; each of these is a step, for any node and any value.  The methods
    and whole passes of [monitor_node] are steps too, for any answer of the
    environment, and a handle may be closed from outside ([cleanup], the
    peer). *)
Inductive reachable : state → Prop :=
| reach_init : reachable init
| reach_write name f s :
    (∀ n, momentums (f n) = momentums n) →
    reachable s → reachable (update name f s).2
| reach_stale name s :
    reachable s →
    reachable (update name (λ n, set_momentums (mark_stale <$> momentums n) n) s).2
| reach_emit es s :
    reachable s → reachable (emit es s)
| reach_closed h s :
    reachable s → reachable (set_closed ({[h]} ∪ closed s) s)
| reach_update name h x now s :
    reachable s → reachable (update_momentums name h x now s).2
| reach_fork s :
    reachable s → reachable (check_for_fork s).2
| reach_disconnection name s :
    reachable s → reachable (handle_disconnection name s).2
| reach_health name now s :
    reachable s → reachable (check_connection_health name now s).2
| reach_connect name env s :
    reachable s → reachable (connect_node name env s).2
| reach_receive name env s :
    reachable s → reachable (receive name env s).2
| reach_round name env s :
    reachable s → reachable (monitor_node_round name env s).2.

(** The state after the passes of one node's loop answered by [envs]. *)
Definition passes (name : string) (envs : list round_env) (s : state) : state :=
  foldl (λ s env, (monitor_node_round name env s).2) s envs.

(** ** The guard of the receive path *)

(** The guard of line 221 fails on an object without [params], and on one
    whose [params] is an object without [result]. *)
Definition no_push (kvs : list (string * json)) : Prop :=
  assoc "params" kvs = None ∨
  ∃ ps, assoc "params" kvs = Some (JObject ps) ∧ assoc "result" ps = None.

(** ** Example states and answers of the environment *)

(** Three nodes X = hc1, Y = zenonhub, Z = atsocy. *)
Definition reporting (w : socket) (connected : bool) (h : Z) (x : string)
  : NodeState :=
  mkNodeState (Some w) (Some (JString "1")) (Some h) (Some x) connected 0%float [].
Arguments reporting w%_nat connected h%_Z x%_string.

Definition scenario (x y z : NodeState) : state :=
  mkState [("hc1", x); ("zenonhub", y); ("atsocy", z)]%string ∅ [].

Definition scenario_A : state :=
  scenario (reporting 1 true 100 "H1") (reporting 2 true 100 "H1")
    (reporting 3 true 100 "H1").
Definition scenario_B : state :=
  scenario (reporting 1 true 100 "H1") (reporting 2 true 100 "H2")
    (reporting 3 true 100 "H1").
Definition scenario_C : state :=
  scenario (reporting 1 true 100 "H1") (reporting 2 true 99 "H1")
    (reporting 3 true 100 "H1").
Definition scenario_D : state :=
  scenario (reporting 1 true 100 "H1") (reporting 2 true 100 "H1")
    (reporting 3 false 100 "H1").

(** A connected node with two fresh momentums, next to two idle nodes. *)
Definition held : list Momentum :=
  [mkMomentum 100 "H1" 50%float false; mkMomentum 101 "H2" 60%float false].

Definition live_node : NodeState :=
  mkNodeState (Some 7%nat) (Some (JString "1")) (Some 101) (Some "H2"%string)
    true 60%float held.

Definition live : state :=
  mkState [("hc1", live_node); ("zenonhub", NodeState_default);
           ("atsocy", NodeState_default)]%string ∅ [].

(** hc1 holding five momentums. *)
Definition full_node : NodeState :=
  mkNodeState (Some 1%nat) (Some (JString "a1")) (Some 5) (Some "e"%string)
    true 15%float
    [mkMomentum 1 "a" 11%float false; mkMomentum 2 "b" 12%float false;
     mkMomentum 3 "c" 13%float false; mkMomentum 4 "d" 14%float false;
     mkMomentum 5 "e" 15%float false].

Definition full : state :=
  mkState [("hc1", full_node); ("zenonhub", NodeState_default);
           ("atsocy", NodeState_default)]%string ∅ [].

(** A subscription that is acknowledged. *)
Definition subscribed (h : socket) : connect_env :=
  mkConnectEnv (inr h) (inr tt)
    (inr (mkFrame "{'id': 1, 'result': 'a1'}"
            (Some (JObject [("id", JInt 1); ("result", JString "a1")]))))
    10%float.

(** A momentum notification. *)
Definition push (h : Z) (x : string) : frame :=
  mkFrame "push"
    (Some (JObject
       [("params",
         JObject [("result", JArray [JObject [("height", JInt h);
                                               ("hash", JString x)]])])])).

(** A pass with no shutdown, in which [recv] answers [received] and every
    clock reading is [now]. *)
Definition answering (received : exn + frame) (now : float) : round_env :=
  mkRoundEnv false (subscribed 1%nat) now received now now false.

(** hc1 connects and receives seven momentums. *)
Definition seven_pushes : list round_env :=
  [answering (inr (push 1 "a")) 11; answering (inr (push 2 "b")) 12;
   answering (inr (push 3 "c")) 13; answering (inr (push 4 "d")) 14;
   answering (inr (push 5 "e")) 15; answering (inr (push 6 "f")) 16;
   answering (inr (push 7 "g")) 17]%float.

(** A push whose [result] is an empty list, and the JSON text [null]. *)
Definition empty_result : frame :=
  mkFrame "{'params': {'result': []}}"
    (Some (JObject [("params", JObject [("result", JArray [])])])).

Definition null_text : frame := mkFrame "null" (Some JNull).

(** [live] after the catch-all handler of [monitor_node] on exception [e],
    the frame having arrived at [t]. *)
Definition after_error (e : exn) (t : float) : state :=
  mkState [("hc1", set_is_connected false (set_last_message_time t live_node));
           ("zenonhub", NodeState_default); ("atsocy", NodeState_default)]%string
    ∅ [Logged ERROR (MonitorError "hc1" e); Slept 5].

(** ** Registered nodes and their handles *)

(** [node_name] is a key of [self.nodes]. *)
Definition registered (node_name : string) (s : state) : Prop :=
  is_Some (assoc node_name (nodes s)).

(** A node that is marked connected holds a handle. *)
Definition wired (n : NodeState) : Prop :=
  is_connected n = true → is_Some (websocket n).

(** ** The answers on which connect_node succeeds *)

(** The handle and the [result] of the acknowledgment, when the handshake,
    the send and the wait succeed and the frame decodes to an object with a
    [result] key. *)
Definition acknowledged (env : connect_env) : option (socket * json) :=
  match opened env, sent env, ack env with
  | inr h, inr _, inr fr =>
      match loads fr with
      | Some (JObject kvs) =>
          match assoc "result" kvs with
          | Some r => Some (h, r)
          | None => None
          end
      | _ => None
      end
  | _, _, _ => None
  end.

(** The node record after a successful [connect_node]. *)
Definition connected_as (h : socket) (r : json) (t : float) (n : NodeState)
  : NodeState :=
  mkNodeState (Some h) (py_optional r) (last_height n) (last_hash n) true t
    (momentums n).

(** The handle that a failed [connect_node] passes to disconnection
    handling: the one just opened, or the one the node held. *)
Definition handle_at_failure (env : connect_env) (n : NodeState) : option socket :=
  match opened env with
  | inr h => Some h
  | inl _ => websocket n
  end.

(** ** Momentum notifications *)

(** [fr] decodes to a notification whose [params.result[0]] is the object
    [m]. *)
Definition notifies (fr : frame) (m : list (string * json)) : Prop :=
  ∃ kvs ps rest,
    loads fr = Some (JObject kvs) ∧
    assoc "params" kvs = Some (JObject ps) ∧
    assoc "result" ps = Some (JArray (JObject m :: rest)).

(** The node record after the pass has accepted height [h] and hash [x]. *)
Definition accepted (h : Z) (x : string) (env : round_env) (n : NodeState)
  : NodeState :=
  appended h x (momentum_time env)
    (set_last_hash (Some x)
       (set_last_height (Some h)
          (set_last_message_time (received_time env) n))).

(** ** Executions by whole method calls *)

(** The states after any sequence of calls of the methods on registered
    nodes, each run to its end; the node tasks are created for the keys of
    [self.nodes] (lines 69-72). *)
Inductive called : state → Prop :=
| called_init : called init
| called_round name env s :
    called s → registered name s → called (monitor_node_round name env s).2
| called_connect name env s :
    called s → registered name s → called (connect_node name env s).2
| called_health name now s :
    called s → registered name s → called (check_connection_health name now s).2
| called_disconnection name s :
    called s → registered name s → called (handle_disconnection name s).2
| called_update name h x now s :
    called s → registered name s → called (update_momentums name h x now s).2
| called_fork s :
    called s → called (check_for_fork s).2
| called_closed h s :
    called s → called (set_closed ({[h]} ∪ closed s) s).

(** ** The snapshot *)

(** The handles held by the nodes of a registry, in its order. *)
Definition held_handles (r : registry) : list socket :=
  omap (λ kv : string * NodeState, websocket kv.2) r.

(** ** Example environments *)


(** ** The handlers of monitor_node *)

(** What the handler of lines 233-242 logs for exception [e]. *)
Definition failure_record (node_name : string) (e : exn) : event :=
  match e with
  | ConnectionClosed => Logged WARNING (ClosedReconnect node_name)
  | _ => Logged ERROR (MonitorError node_name e)
  end.

(** The state in which it leaves the monitor. *)
Definition recovered (node_name : string) (env : round_env) (e : exn) (s : state)
  : state :=
  if shutdown_in_handler env then s
  else emit [failure_record node_name e; Slept 5]
         (set_nodes (assoc_alter (set_is_connected false) node_name (nodes s)) s).

(** A pass that finds the shutdown flag set. *)
Definition shutdown_pass : round_env :=
  mkRoundEnv true (subscribed 1%nat) 18%float (inr (push 8 "h"))
    18%float 18%float false.

(** A notification with a height and no hash. *)
Definition hashless : frame :=
  mkFrame "{'params': {'result': [{'height': 102}]}}"
    (Some (JObject
       [("params", JObject [("result", JArray [JObject [("height", JInt 102)]])])])).

(** [node_name] is registered and every node marked connected holds a
    handle. *)
Definition wired_at (node_name : string) (s : state) : Prop :=
  registered node_name s ∧ every wired s.

(** ** Backoff *)

(** The number of [asyncio.sleep] calls recorded in a trace. *)
Definition sleeps (t : list event) : nat :=
  length (List.filter (λ e, match e with Slept _ => true | _ => false end) t).

(** [k] sleeps have been recorded. *)
Definition slept (k : nat) (s : state) : Prop := sleeps (trace s) = k.

(** A pass that finds no shutdown flag and whose connection attempt is not
    acknowledged. *)
Definition refused (env : round_env) : Prop :=
  shutdown_at_top env = false ∧ acknowledged (connecting env) = None.

(** Three passes in which the handshake fails. *)
Definition unreachable_peer : list round_env :=
  replicate 3
    (mkRoundEnv false (mkConnectEnv (inl TransportError) (inr tt)
                         (inl TimeoutError) 0%float)
       0%float (inl TimeoutError) 0%float 0%float false).

(** * Properties *)

(** ** Association lists *)

Section assoc_facts.
Context {A : Type}.
Implicit Types (l : list (string * A)) (k : string) (f : A → A).

Lemma assoc_elem_of k l v : assoc k l = Some v → (k, v) ∈ l.
Proof.
  induction l as [|[k' v'] l IH]; simpl; [done|].
  case_decide; intros; simplify_eq; [left | right; auto].
Qed.

Lemma assoc_value k l v : assoc k l = Some v → v ∈ values l.
Proof.
  intros H%assoc_elem_of. unfold values.
  apply list_elem_of_fmap. by exists (k, v).
Qed.

Lemma assoc_key k l : k ∈ l.*1 → is_Some (assoc k l).
Proof.
  induction l as [|[k' v'] l IH]; simpl.
  - by intros ?%elem_of_nil.
  - csimpl. intros [->|?]%elem_of_cons; case_decide; eauto; done.
Qed.

Lemma assoc_alter_keys f k l : (assoc_alter f k l).*1 = l.*1.
Proof.
  induction l as [|[k' v'] l IH]; simpl; [done|].
  case_decide; csimpl; by rewrite ?IH.
Qed.

Lemma assoc_alter_length f k l : length (assoc_alter f k l) = length l.
Proof.
  induction l as [|[k' v'] l IH]; simpl; [done|].
  case_decide; simpl; congruence.
Qed.

Lemma assoc_alter_eq f k l : assoc k (assoc_alter f k l) = f <$> assoc k l.
Proof.
  induction l as [|[k' v'] l IH]; simpl; [done|].
  case_decide; simpl; case_decide; done.
Qed.

Lemma assoc_alter_ne f k k' l :
  k ≠ k' → assoc k' (assoc_alter f k l) = assoc k' l.
Proof.
  intros Hne. induction l as [|[k1 v1] l IH]; simpl; [done|].
  case_decide; simpl; case_decide; simplify_eq; done.
Qed.

Lemma assoc_alter_compose f g k l :
  assoc_alter f k (assoc_alter g k l) = assoc_alter (f ∘ g) k l.
Proof.
  induction l as [|[k' v'] l IH]; simpl; [done|].
  case_decide; simpl; case_decide; simplify_eq; [done|]. by rewrite IH.
Qed.

Lemma assoc_alter_ext f g k l v :
  assoc k l = Some v → f v = g v → assoc_alter f k l = assoc_alter g k l.
Proof.
  intros Hl Hv. induction l as [|[k' v'] l IH]; simpl in *; [done|].
  case_decide; simplify_eq; [by rewrite Hv|]. by rewrite IH.
Qed.

Lemma assoc_alter_id f k l v :
  assoc k l = Some v → f v = v → assoc_alter f k l = l.
Proof.
  intros Hl Hv. induction l as [|[k' v'] l IH]; simpl in *; [done|].
  case_decide; simplify_eq; [by rewrite Hv|]. by rewrite IH.
Qed.

(** A property of every value survives an update that respects it. *)
Lemma assoc_alter_Forall (P : A → Prop) f k l :
  (∀ v, P v → P (f v)) → Forall P (values l) → Forall P (values (assoc_alter f k l)).
Proof.
  intros Hf. unfold values.
  induction l as [|[k' v'] l IH]; simpl; [done|].
  intros [? ?]%Forall_cons. case_decide; csimpl; constructor; auto.
Qed.
End assoc_facts.

(** ** The trace only grows *)

Lemma emit_nil s : emit [] s = s.
Proof. destruct s. unfold emit. simpl. by rewrite app_nil_r. Qed.

Lemma emit_emit es1 es2 s : emit es2 (emit es1 s) = emit (es1 ++ es2) s.
Proof. unfold emit. simpl. by rewrite app_assoc. Qed.

Lemma for_each_logger {A} (l : list A) lv (f : A → message) s :
  for_each l (λ x, logger lv (f x)) s = (Ok tt, emit ((λ x, Logged lv (f x)) <$> l) s).
Proof.
  revert s. induction l as [|x l IH]; intros s; simpl.
  - by rewrite emit_nil.
  - unfold bind, logger, modify at 1. rewrite IH, emit_emit. done.
Qed.

(** ** [len(set(heights.values())) > 1] *)

Lemma distinct_heights (l : list (option Z)) :
  (1 < size (list_to_set l : gset (option Z)))%nat ↔
  ∃ a b, a ∈ l ∧ b ∈ l ∧ a ≠ b.
Proof.
  split.
  - destruct l as [|a l].
    + rewrite list_to_set_nil, size_empty. lia.
    + intros Hsize. destruct (decide (Forall (λ b, b = a) l)) as [Hall|Hex].
      * exfalso. assert (list_to_set (a :: l) = ({[a]} : gset (option Z))) as Heq.
        { apply set_eq. intros x. rewrite elem_of_list_to_set, elem_of_singleton.
          rewrite Forall_forall in Hall. split.
          - intros [->|?]%elem_of_cons; auto.
          - intros ->. left. }
        rewrite Heq, size_singleton in Hsize. lia.
      * apply not_Forall_Exists in Hex; [|solve_decision].
        apply Exists_exists in Hex as (b & Hb & Hne).
        exists a, b. split_and!; [left | by right | congruence].
  - intros (a & b & Ha & Hb & Hne).
    assert ({[a; b]} ⊆ (list_to_set l : gset (option Z))) as Hsub.
    { intros x. rewrite elem_of_union, !elem_of_singleton, elem_of_list_to_set.
      by intros [->| ->]. }
    apply subseteq_size in Hsub.
    rewrite size_union, !size_singleton in Hsub; [lia|].
    intros x. rewrite !elem_of_singleton. congruence.
Qed.

(** ** The fork check is a function of the registry *)

Lemma logger_then {A} lv m (k : M A) s :
  (logger lv m ;; k) s = k (emit [Logged lv m] s).
Proof. reflexivity. Qed.

Lemma check_for_fork_report s :
  check_for_fork s = ((fork_report (nodes s)).1, emit (fork_report (nodes s)).2 s).
Proof.
  unfold check_for_fork, fork_report, heights_of, node.
  unfold bind at 1, gets at 1. cbv beta iota.
  destruct (forallb is_connected (values (nodes s))); simpl; [|done].
  destruct (existsb no_data (values (nodes s))); simpl; [done|].
  case_bool_decide; simpl.
  - rewrite logger_then, for_each_logger, emit_emit. done.
  - unfold bind at 1 2, gets. cbv beta iota.
    destruct (assoc "hc1" (nodes s)) as [hc1|]; simpl.
    + destruct (all_same (last_hash hc1) (nodes s)); simpl; [done|].
      rewrite logger_then, for_each_logger, emit_emit. done.
    + unfold raise. by rewrite emit_nil.
Qed.

Lemma heights_of_values (r : registry) : heights_of r = last_height <$> values r.
Proof.
  unfold heights_of, values. rewrite <- !list_fmap_compose.
  by apply list_fmap_ext.
Qed.

Lemma all_connected_forallb (r : registry) :
  forallb is_connected (values r) = true ↔
  ∀ n, n ∈ values r → is_connected n = true.
Proof.
  rewrite forallb_forall. split; intros H n Hn; apply H; by apply list_elem_of_In.
Qed.

Lemma no_data_existsb (r : registry) :
  existsb no_data (values r) = false ↔
  ∀ n, n ∈ values r → last_height n ≠ None ∧ last_hash n ≠ None.
Proof.
  rewrite <- not_true_iff_false, existsb_exists. split.
  - intros H n Hn. unfold no_data in H.
    destruct (decide (last_height n = None)) as [E|?];
      [|destruct (decide (last_hash n = None)) as [E|?]; [|done]].
    + destruct H. exists n. split; [by apply list_elem_of_In|].
      by rewrite (bool_decide_eq_true_2 _ E).
    + destruct H. exists n. split; [by apply list_elem_of_In|].
      rewrite (bool_decide_eq_true_2 _ E). apply orb_true_r.
  - intros H (n & Hn%list_elem_of_In & Hd). destruct (H n Hn) as [H1 H2].
    unfold no_data in Hd. apply orb_true_iff in Hd as [Hd|Hd];
      apply bool_decide_eq_true in Hd; done.
Qed.

Lemma all_same_spec (x : option string) (r : registry) :
  all_same x r = true ↔ ∀ n, n ∈ values r → last_hash n = x.
Proof.
  unfold all_same. rewrite forallb_forall. split.
  - intros H n Hn. eapply bool_decide_eq_true_1, H. by apply list_elem_of_In.
  - intros H n Hn. apply bool_decide_eq_true_2, H. by apply list_elem_of_In.
Qed.

Lemma same_heights_size (r : registry) :
  (∀ n1 n2, n1 ∈ values r → n2 ∈ values r → last_height n1 = last_height n2) ↔
  ¬ (1 < size (list_to_set (heights_of r) : gset (option Z)))%nat.
Proof.
  rewrite distinct_heights, heights_of_values. split.
  - intros H (a & b & Ha & Hb & Hne).
    apply list_elem_of_fmap in Ha as (n1 & -> & ?).
    apply list_elem_of_fmap in Hb as (n2 & -> & ?). eauto.
  - intros H n1 n2 H1 H2.
    destruct (decide (last_height n1 = last_height n2)) as [|Hne]; [done|].
    destruct H. exists (last_height n1), (last_height n2).
    split_and!; [by apply list_elem_of_fmap_2 ..|done].
Qed.

(** Case analysis on membership in a literal list of nodes. *)
Ltac each_node :=
  intros; cbn in *;
  repeat match goal with
         | H : _ ∈ _ :: _ |- _ => apply elem_of_cons in H as [->|H]
         | H : _ ∈ [] |- _ => by apply elem_of_nil in H
         end.

(** ** check_for_fork *)

(** C1.  All nodes connected, all with a height and a hash, all heights
    equal: when all hashes are equal the check logs the one line
    "Height: h, Hash: x" with the common height and hash (consensus); when
    two hashes differ it logs "Fork detected!" followed by every node's
    name, height and hash (fork). *)
Theorem check_for_fork_equal_heights (s : state) :
  "hc1" ∈ (nodes s).*1 →
  (∀ n, n ∈ values (nodes s) → is_connected n = true) →
  (∀ n, n ∈ values (nodes s) → last_height n ≠ None ∧ last_hash n ≠ None) →
  (∀ n1 n2, n1 ∈ values (nodes s) → n2 ∈ values (nodes s) →
            last_height n1 = last_height n2) →
  ((∀ n1 n2, n1 ∈ values (nodes s) → n2 ∈ values (nodes s) →
             last_hash n1 = last_hash n2) →
   ∃ h x,
     (∀ n, n ∈ values (nodes s) → last_height n = Some h ∧ last_hash n = Some x) ∧
     check_for_fork s =
       (Ok tt, emit [Logged INFO (HeightHash (Some h) (Some x))] s))
  ∧
  ((∃ n1 n2, n1 ∈ values (nodes s) ∧ n2 ∈ values (nodes s) ∧
             last_hash n1 ≠ last_hash n2) →
   ∃ h,
     (∀ n, n ∈ values (nodes s) → last_height n = Some h) ∧
     check_for_fork s =
       (Ok tt, emit (Logged WARNING ForkDetected :: status_lines (nodes s)) s)).
Proof.
  intros Hkey Hconn Hdata Hheights.
  apply assoc_key in Hkey as [hc1 Hhc1].
  pose proof (assoc_value _ _ _ Hhc1) as Hin.
  destruct (Hdata hc1 Hin) as [Hh Hx].
  destruct (last_height hc1) as [h|] eqn:Eh; [clear Hh|done].
  destruct (last_hash hc1) as [x|] eqn:Ex; [clear Hx|done].
  assert (∀ n, n ∈ values (nodes s) → last_height n = Some h) as Hcommon.
  { intros n Hn. rewrite <- Eh. by apply Hheights. }
  rewrite check_for_fork_report. unfold fork_report.
  rewrite (proj2 (all_connected_forallb _) Hconn),
          (proj2 (no_data_existsb _) Hdata).
  rewrite bool_decide_eq_false_2 by by apply same_heights_size.
  rewrite Hhc1, Eh, Ex. simpl.
  split.
  - intros Hsame. exists h, x. split.
    + intros n Hn. split; [auto|]. rewrite <- Ex. by apply Hsame.
    + rewrite (proj2 (all_same_spec (Some x) (nodes s))); [done|].
      intros n Hn. rewrite <- Ex. by apply Hsame.
  - intros (n1 & n2 & H1 & H2 & Hne). exists h. split; [done|].
    destruct (all_same (Some x) (nodes s)) eqn:Hall; [|done].
    rewrite all_same_spec in Hall. destruct Hne.
    by rewrite (Hall n1), (Hall n2).
Qed.

Lemma check_for_fork_equal_heights_witness :
  (∃ h x,
     (∀ n, n ∈ values (nodes scenario_A) →
           last_height n = Some h ∧ last_hash n = Some x) ∧
     check_for_fork scenario_A =
       (Ok tt, emit [Logged INFO (HeightHash (Some h) (Some x))] scenario_A))
  ∧
  (∃ h,
     (∀ n, n ∈ values (nodes scenario_B) → last_height n = Some h) ∧
     check_for_fork scenario_B =
       (Ok tt, emit (Logged WARNING ForkDetected :: status_lines (nodes scenario_B))
                 scenario_B)).
Proof.
  split.
  - apply (check_for_fork_equal_heights scenario_A);
      [cbn; set_solver | each_node; done ..].
  - apply (check_for_fork_equal_heights scenario_B);
      [cbn; set_solver | each_node; done ..|].
    exists (reporting 1 true 100 "H1"), (reporting 2 true 100 "H2").
    cbn. split_and!; [set_solver | set_solver | done].
Defined.

(** C2.  As soon as one node is not connected the check logs
    "Lost Connection" and returns: nothing else is logged, whatever the
    heights and hashes of the nodes are. *)
Theorem check_for_fork_disconnected (s : state) :
  (∃ n, n ∈ values (nodes s) ∧ is_connected n = false) →
  check_for_fork s = (Ok tt, emit [Logged WARNING LostConnection] s).
Proof.
  intros (n & Hn & Hc).
  rewrite check_for_fork_report. unfold fork_report.
  destruct (forallb is_connected (values (nodes s))) eqn:Hall; [|done].
  rewrite all_connected_forallb in Hall. rewrite (Hall n Hn) in Hc. done.
Qed.

Lemma check_for_fork_disconnected_witness :
  check_for_fork scenario_D =
    (Ok tt, emit [Logged WARNING LostConnection] scenario_D).
Proof.
  apply (check_for_fork_disconnected scenario_D).
  exists (reporting 3 false 100 "H1"). cbn. split; [set_solver | done].
Defined.

(** C3.  All nodes connected and with data, two of them at different
    heights: the check logs "Nodes are at different heights" and every
    node's height, then returns; no hash is looked at. *)
Theorem check_for_fork_height_mismatch (s : state) :
  (∀ n, n ∈ values (nodes s) → is_connected n = true) →
  (∀ n, n ∈ values (nodes s) → last_height n ≠ None ∧ last_hash n ≠ None) →
  (∃ n1 n2, n1 ∈ values (nodes s) ∧ n2 ∈ values (nodes s) ∧
            last_height n1 ≠ last_height n2) →
  check_for_fork s =
    (Ok tt, emit (Logged INFO DifferentHeights :: height_lines (nodes s)) s).
Proof.
  intros Hconn Hdata (n1 & n2 & H1 & H2 & Hne).
  rewrite check_for_fork_report. unfold fork_report.
  rewrite (proj2 (all_connected_forallb _) Hconn),
          (proj2 (no_data_existsb _) Hdata).
  case_bool_decide as Hsize; [done|].
  destruct Hne. by apply (proj2 (same_heights_size (nodes s)) Hsize).
Qed.

Lemma check_for_fork_height_mismatch_witness :
  check_for_fork scenario_C =
    (Ok tt, emit (Logged INFO DifferentHeights :: height_lines (nodes scenario_C))
              scenario_C).
Proof.
  apply (check_for_fork_height_mismatch scenario_C); [each_node; done ..|].
  exists (reporting 1 true 100 "H1"), (reporting 2 true 99 "H1").
  cbn. split_and!; [set_solver | set_solver | done].
Defined.

(** C9.  The check changes nothing but the log: the registry and the
    transport are as before.  What it returns and logs is determined by the
    registry, so a second call on the unchanged registry, and a call in any
    other state with the same registry, return and log the same. *)
Theorem check_for_fork_pure (s : state) :
  ∃ (res : outcome unit) (lines : list event),
    check_for_fork s = (res, emit lines s) ∧
    nodes (emit lines s) = nodes s ∧
    closed (emit lines s) = closed s ∧
    check_for_fork (emit lines s) = (res, emit lines (emit lines s)) ∧
    ∀ s', nodes s' = nodes s → check_for_fork s' = (res, emit lines s').
Proof.
  exists (fork_report (nodes s)).1, (fork_report (nodes s)).2.
  split_and!; [apply check_for_fork_report | done | done | |].
  - by rewrite check_for_fork_report.
  - intros s' Hs'. by rewrite check_for_fork_report, Hs'.
Qed.

(** C10.  With all nodes connected, all with data and all at one height,
    the outcome is the one computed from any node [a] as the reference: the
    consensus line carries [a]'s height and hash when every hash equals
    [a]'s, and the fork lines are logged otherwise.  Whenever the consensus
    line is logged, the height and hash on it are those of every node. *)
Theorem check_for_fork_any_reference (s : state) :
  "hc1" ∈ (nodes s).*1 →
  (∀ n, n ∈ values (nodes s) → is_connected n = true) →
  (∀ n, n ∈ values (nodes s) → last_height n ≠ None ∧ last_hash n ≠ None) →
  (∀ n1 n2, n1 ∈ values (nodes s) → n2 ∈ values (nodes s) →
            last_height n1 = last_height n2) →
  (∀ a, a ∈ values (nodes s) →
        check_for_fork s =
          (Ok tt,
           emit (if all_same (last_hash a) (nodes s)
                 then [Logged INFO (HeightHash (last_height a) (last_hash a))]
                 else Logged WARNING ForkDetected :: status_lines (nodes s)) s))
  ∧
  (∀ h x,
     check_for_fork s = (Ok tt, emit [Logged INFO (HeightHash h x)] s) →
     ∀ n, n ∈ values (nodes s) → last_height n = h ∧ last_hash n = x).
Proof.
  intros Hkey Hconn Hdata Hheights.
  apply assoc_key in Hkey as [hc1 Hhc1].
  pose proof (assoc_value _ _ _ Hhc1) as Hin.
  assert (check_for_fork s =
          (Ok tt,
           emit (if all_same (last_hash hc1) (nodes s)
                 then [Logged INFO (HeightHash (last_height hc1) (last_hash hc1))]
                 else Logged WARNING ForkDetected :: status_lines (nodes s)) s))
    as Hrun.
  { rewrite check_for_fork_report. unfold fork_report.
    rewrite (proj2 (all_connected_forallb _) Hconn),
            (proj2 (no_data_existsb _) Hdata).
    rewrite bool_decide_eq_false_2 by by apply same_heights_size.
    rewrite Hhc1. simpl. by destruct (all_same _ _). }
  split.
  - intros a Ha. rewrite Hrun. rewrite (Hheights a hc1 Ha Hin).
    destruct (all_same (last_hash hc1) (nodes s)) eqn:Hall.
    + rewrite all_same_spec in Hall. rewrite (Hall a Ha).
      by rewrite (proj2 (all_same_spec _ _) Hall).
    + destruct (all_same (last_hash a) (nodes s)) eqn:Hall'; [|done].
      rewrite all_same_spec in Hall'.
      assert (all_same (last_hash hc1) (nodes s) = true) as Hc; [|congruence].
      apply all_same_spec. intros n Hn. by rewrite (Hall' n), (Hall' hc1).
  - intros h x Hcons n Hn. rewrite Hrun in Hcons.
    destruct (all_same (last_hash hc1) (nodes s)) eqn:Hall.
    + assert (trace s ++ [Logged INFO (HeightHash (last_height hc1) (last_hash hc1))]
              = trace s ++ [Logged INFO (HeightHash h x)]) as Heq
        by (unfold emit in Hcons; congruence).
      apply app_inv_head in Heq. simplify_eq.
      rewrite all_same_spec in Hall. split; [by apply Hheights | by apply Hall].
    + assert (trace s ++ Logged WARNING ForkDetected :: status_lines (nodes s)
              = trace s ++ [Logged INFO (HeightHash h x)]) as Heq
        by (unfold emit in Hcons; congruence).
      apply app_inv_head in Heq. discriminate.
Qed.

Lemma check_for_fork_any_reference_witness :
  Forall (λ n, last_height n = Some 100 ∧ last_hash n = Some "H1"%string)
    (values (nodes scenario_A))
  ∧ check_for_fork scenario_B =
      (Ok tt, emit (Logged WARNING ForkDetected :: status_lines (nodes scenario_B))
                scenario_B).
Proof.
  split.
  - apply Forall_forall.
    apply (proj2 (check_for_fork_any_reference scenario_A
                    ltac:(cbn; set_solver) ltac:(each_node; done)
                    ltac:(each_node; done) ltac:(each_node; done))
                 (Some 100) (Some "H1"%string)).
    reflexivity.
  - apply (proj1 (check_for_fork_any_reference scenario_B
                    ltac:(cbn; set_solver) ltac:(each_node; done)
                    ltac:(each_node; done) ltac:(each_node; done))
                 (reporting 3 true 100 "H1")).
    cbn. set_solver.
Defined.

(** ** Running the accessors *)

Lemma node_eq name s n : assoc name (nodes s) = Some n → node name s = (Ok n, s).
Proof. intros H. unfold node, bind, gets. by rewrite H. Qed.

Lemma node_missing name s :
  assoc name (nodes s) = None → node name s = (Raise KeyError, s).
Proof. intros H. unfold node, bind, gets. by rewrite H. Qed.

Lemma update_eq name f s n :
  assoc name (nodes s) = Some n →
  update name f s = (Ok tt, set_nodes (assoc_alter f name (nodes s)) s).
Proof. intros H. unfold update, bind. by rewrite (node_eq _ _ _ H). Qed.

Lemma update_missing name f s :
  assoc name (nodes s) = None → update name f s = (Raise KeyError, s).
Proof. intros H. unfold update, bind. by rewrite (node_missing _ _ H). Qed.

(** ** handle_disconnection *)

Lemma update_then {A} name f (k : M A) s n :
  assoc name (nodes s) = Some n →
  (update name f ;; k) s = k (set_nodes (assoc_alter f name (nodes s)) s).
Proof. intros H. unfold bind. by rewrite (update_eq _ _ _ _ H). Qed.

Lemma assoc_after_alter name f (s : state) n :
  assoc name (nodes s) = Some n →
  assoc name (nodes (set_nodes (assoc_alter f name (nodes s)) s)) = Some (f n).
Proof. intros H. simpl. by rewrite assoc_alter_eq, H. Qed.

Lemma handle_disconnection_eq name s n :
  assoc name (nodes s) = Some n →
  handle_disconnection name s =
    (Ok tt, mkState (assoc_alter disconnected name (nodes s))
                    (closing (websocket n) (closed s)) (trace s)).
Proof.
  intros Hn. unfold handle_disconnection.
  unfold bind at 1. rewrite (node_eq _ _ _ Hn).
  rewrite (update_then _ _ _ _ _ Hn).
  pose proof (assoc_after_alter _ (set_is_connected false) _ _ Hn) as H1.
  rewrite (update_then _ _ _ _ _ H1).
  pose proof (assoc_after_alter _ (set_subscription_id None) _ _ H1) as H2.
  unfold bind at 1. rewrite (node_eq _ _ _ H2).
  unfold bind at 1, gets at 1. cbv beta iota.
  assert (∀ c : gset socket,
            (update name (set_websocket None) ;;
             match momentums (set_subscription_id None (set_is_connected false n)) with
             | [] => ret tt
             | _ => update name (λ n, set_momentums (mark_stale <$> momentums n) n)
             end)
              (mkState (assoc_alter (set_subscription_id None) name
                          (assoc_alter (set_is_connected false) name (nodes s)))
                       c (trace s)) =
            (Ok tt, mkState (assoc_alter disconnected name (nodes s)) c (trace s)))
    as Hrest.
  { intros c.
    assert (assoc name (assoc_alter (set_subscription_id None) name
                          (assoc_alter (set_is_connected false) name (nodes s)))
            = Some (set_subscription_id None (set_is_connected false n))) as H3.
    { by rewrite !assoc_alter_eq, Hn. }
    rewrite (update_then _ _ _ _ (set_subscription_id None (set_is_connected false n)));
      [|done].
    unfold set_nodes. cbn [nodes closed trace]. rewrite !assoc_alter_compose.
    cbn [momentums set_subscription_id set_is_connected].
    destruct (momentums n) as [|m ms] eqn:Hm.
    - unfold ret. do 2 f_equal.
      apply (assoc_alter_ext _ _ _ _ _ Hn).
      unfold disconnected, set_websocket, set_subscription_id, set_is_connected.
      simpl. by rewrite Hm.
    - erewrite update_eq;
        [|cbn [nodes]; rewrite assoc_alter_eq, Hn; reflexivity].
      unfold set_nodes. cbn [nodes closed trace]. rewrite assoc_alter_compose.
      do 2 f_equal; try by apply (assoc_alter_ext _ _ _ _ _ Hn). }
  cbn [websocket set_subscription_id set_is_connected].
  unfold set_nodes. cbn [nodes closed trace].
  destruct (websocket n) as [h|] eqn:Hw.
  - case_bool_decide as Hc; cbn [negb].
    + unfold bind at 1, ret at 1. unfold set_nodes. cbn [nodes closed trace].
      rewrite Hrest. cbn [closing]. do 2 f_equal.
      apply set_eq. intros x. rewrite elem_of_union, elem_of_singleton.
      split; [by right | by intros [->|?]].
    + unfold bind at 1, close, modify. unfold set_closed, set_nodes.
      cbn [nodes closed trace]. by rewrite Hrest.
  - unfold bind at 1, ret at 1. unfold set_nodes. cbn [nodes closed trace].
    by rewrite Hrest.
Qed.

Lemma handle_disconnection_missing name s :
  assoc name (nodes s) = None →
  handle_disconnection name s = (Raise KeyError, s).
Proof.
  intros H. unfold handle_disconnection, bind. by rewrite (node_missing _ _ H).
Qed.

(** C6.  Disconnection handling of a registered node returns normally and
    leaves the node not connected, without subscription id and without
    handle; the handle it held is closed afterwards; every held momentum is
    stale, and the buffer has the same entries in the same order, with
    height, hash and timestamp untouched.  Nothing else changes. *)
Theorem handle_disconnection_effect (name : string) (s : state) (n : NodeState) :
  assoc name (nodes s) = Some n →
  ∃ s' n',
    handle_disconnection name s = (Ok tt, s') ∧
    assoc name (nodes s') = Some n' ∧
    is_connected n' = false ∧
    subscription_id n' = None ∧
    websocket n' = None ∧
    (∀ h, websocket n = Some h → h ∈ closed s' ∧ closed s' = {[h]} ∪ closed s) ∧
    (websocket n = None → closed s' = closed s) ∧
    length (momentums n') = length (momentums n) ∧
    (∀ i m, momentums n !! i = Some m →
       ∃ m', momentums n' !! i = Some m' ∧ is_stale m' = true ∧
             height m' = height m ∧ hash m' = hash m ∧
             timestamp m' = timestamp m) ∧
    last_height n' = last_height n ∧
    last_hash n' = last_hash n ∧
    last_message_time n' = last_message_time n ∧
    (∀ other, other ≠ name → assoc other (nodes s') = assoc other (nodes s)) ∧
    (nodes s').*1 = (nodes s).*1 ∧
    trace s' = trace s.
Proof.
  intros Hn. eexists _, (disconnected n).
  split; [by apply handle_disconnection_eq|]. cbn [nodes closed trace].
  split_and!; try done.
  - by rewrite assoc_alter_eq, Hn.
  - intros h ->. simpl. split; [set_solver|done].
  - by intros ->.
  - simpl. by rewrite length_fmap.
  - intros i m Hi. exists (mark_stale m). simpl.
    by rewrite list_lookup_fmap, Hi.
  - intros other Hne. by apply assoc_alter_ne.
  - apply assoc_alter_keys.
Qed.

Lemma handle_disconnection_effect_witness :
  ∃ s' n',
    handle_disconnection "hc1" live = (Ok tt, s') ∧
    assoc "hc1" (nodes s') = Some n' ∧
    is_connected n' = false ∧
    subscription_id n' = None ∧
    websocket n' = None ∧
    (∀ h, websocket live_node = Some h →
          h ∈ closed s' ∧ closed s' = {[h]} ∪ closed live) ∧
    (websocket live_node = None → closed s' = closed live) ∧
    length (momentums n') = length (momentums live_node) ∧
    (∀ i m, momentums live_node !! i = Some m →
       ∃ m', momentums n' !! i = Some m' ∧ is_stale m' = true ∧
             height m' = height m ∧ hash m' = hash m ∧
             timestamp m' = timestamp m) ∧
    last_height n' = last_height live_node ∧
    last_hash n' = last_hash live_node ∧
    last_message_time n' = last_message_time live_node ∧
    (∀ other, other ≠ "hc1"%string →
              assoc other (nodes s') = assoc other (nodes live)) ∧
    (nodes s').*1 = (nodes live).*1 ∧
    trace s' = trace live.
Proof. apply (handle_disconnection_effect "hc1" live live_node). reflexivity. Defined.

(** ** check_connection_health *)

(** C8.  On a connected node whose last message is more than 30 seconds
    before [now], the health check logs the timeout and runs disconnection
    handling: the node ends not connected with every held momentum stale.
    The check takes no transport event.  On a node that is not connected it
    returns at once and the state is as before. *)
Theorem check_connection_health_effect (name : string) (now : float)
    (s : state) (n : NodeState) :
  assoc name (nodes s) = Some n →
  (is_connected n = true →
   PrimFloat.ltb 30%float (PrimFloat.sub now (last_message_time n)) = true →
   check_connection_health name now s =
     handle_disconnection name
       (emit [Logged WARNING (NoMessages name MESSAGE_TIMEOUT)] s) ∧
   ∃ s' n',
     check_connection_health name now s = (Ok tt, s') ∧
     assoc name (nodes s') = Some n' ∧
     is_connected n' = false ∧
     subscription_id n' = None ∧
     websocket n' = None ∧
     length (momentums n') = length (momentums n) ∧
     Forall (λ m, is_stale m = true) (momentums n'))
  ∧
  (is_connected n = false → check_connection_health name now s = (Ok tt, s)).
Proof.
  intros Hn. split.
  - intros Hc Ht.
    assert (check_connection_health name now s =
            handle_disconnection name
              (emit [Logged WARNING (NoMessages name MESSAGE_TIMEOUT)] s)) as Hrun.
    { unfold check_connection_health, bind at 1. rewrite (node_eq _ _ _ Hn), Hc.
      cbn [negb]. unfold timed_out.
      change (of_uint63 (of_Z MESSAGE_TIMEOUT)) with 30%float.
      by rewrite Ht. }
    split; [done|]. rewrite Hrun.
    eexists _, (disconnected n).
    split; [by apply handle_disconnection_eq|]. cbn [nodes emit].
    rewrite assoc_alter_eq, Hn. split_and!; try done.
    + simpl. by rewrite length_fmap.
    + simpl. by apply Forall_fmap, Forall_true.
  - intros Hc. unfold check_connection_health, bind.
    by rewrite (node_eq _ _ _ Hn), Hc.
Qed.

Lemma check_connection_health_effect_witness :
  (check_connection_health "hc1" 100%float live =
     handle_disconnection "hc1"
       (emit [Logged WARNING (NoMessages "hc1" MESSAGE_TIMEOUT)] live) ∧
   ∃ s' n',
     check_connection_health "hc1" 100%float live = (Ok tt, s') ∧
     assoc "hc1" (nodes s') = Some n' ∧
     is_connected n' = false ∧
     subscription_id n' = None ∧
     websocket n' = None ∧
     length (momentums n') = length (momentums live_node) ∧
     Forall (λ m, is_stale m = true) (momentums n'))
  ∧ check_connection_health "zenonhub" 100%float live = (Ok tt, live).
Proof.
  split.
  - apply (proj1 (check_connection_health_effect "hc1" 100%float live live_node
                    eq_refl)); reflexivity.
  - apply (proj2 (check_connection_health_effect "zenonhub" 100%float live
                    NodeState_default eq_refl)); reflexivity.
Defined.

(** ** Invariants of the registry *)

Section keeps.
Context (P : state → Prop).

Lemma keeps_ret {A} (a : A) : keeps P (ret a).
Proof. by intros s. Qed.

Lemma keeps_raise {A} e : keeps P (raise (A:=A) e).
Proof. by intros s. Qed.

Lemma keeps_unmodelled {A} : keeps P (unmodelled (A:=A)).
Proof. by intros s. Qed.

Lemma keeps_gets {A} (f : state → A) : keeps P (gets f).
Proof. by intros s. Qed.

Lemma keeps_await {A} (r : exn + A) : keeps P (await r).
Proof. by destruct r; intros s. Qed.

Lemma keeps_modify f : (∀ s, P s → P (f s)) → keeps P (modify f).
Proof. intros H s. apply H. Qed.

Lemma keeps_bind {A B} (m : M A) (f : A → M B) :
  keeps P m → (∀ a, keeps P (f a)) → keeps P (bind m f).
Proof.
  intros Hm Hf s Hs. unfold bind. specialize (Hm s Hs).
  destruct (m s) as [[a|e|] s']; simpl in *; [by apply Hf|done..].
Qed.

Lemma keeps_try_except {A} (body : M A) handler :
  keeps P body →
  (∀ e h, handler e = Some h → keeps P h) →
  keeps P (try_except body handler).
Proof.
  intros Hb Hh s Hs. unfold try_except. specialize (Hb s Hs).
  destruct (body s) as [[a|e|] s']; simpl in *; [done| |done].
  destruct (handler e) as [h|] eqn:He; [|done]. by apply (Hh e h).
Qed.

Lemma keeps_for_each {A} (l : list A) (f : A → M unit) :
  (∀ x, keeps P (f x)) → keeps P (for_each l f).
Proof.
  intros Hf. induction l as [|x l IH]; simpl.
  - apply keeps_ret.
  - apply keeps_bind; auto.
Qed.

Lemma keeps_node name : keeps P (node name).
Proof.
  intros s Hs. unfold node, bind, gets.
  by destruct (assoc name (nodes s)).
Qed.

Lemma keeps_py_in key data : keeps P (py_in key data).
Proof. destruct data; first [apply keeps_ret | apply keeps_raise]. Qed.

Lemma keeps_py_getitem data key : keeps P (py_getitem data key).
Proof.
  destruct data; try apply keeps_raise. simpl.
  destruct (assoc key l); [apply keeps_ret | apply keeps_raise].
Qed.

Lemma keeps_py_first data : keeps P (py_first data).
Proof.
  destruct data as [| | | |[|]|[|]|]; first [apply keeps_ret | apply keeps_raise].
Qed.

Lemma keeps_json_loads fr : keeps P (json_loads fr).
Proof.
  unfold json_loads. destruct (loads fr); [apply keeps_ret | apply keeps_raise].
Qed.

Lemma keeps_expect_int j : keeps P (expect_int j).
Proof. destruct j; first [apply keeps_ret | apply keeps_unmodelled]. Qed.

Lemma keeps_expect_str j : keeps P (expect_str j).
Proof. destruct j; first [apply keeps_ret | apply keeps_unmodelled]. Qed.
End keeps.

(** One step through the structure of a method; the goals left are its
    effects on the state. *)
Ltac keeps_step :=
  match goal with
  | |- keeps _ (bind _ _) => apply keeps_bind
  | |- keeps _ (ret _) => apply keeps_ret
  | |- keeps _ (raise _) => apply keeps_raise
  | |- keeps _ unmodelled => apply keeps_unmodelled
  | |- keeps _ (gets _) => apply keeps_gets
  | |- keeps _ (await _) => apply keeps_await
  | |- keeps _ (for_each _ _) => apply keeps_for_each
  | |- keeps _ (node _) => apply keeps_node
  | |- keeps _ (py_in _ _) => apply keeps_py_in
  | |- keeps _ (py_getitem _ _) => apply keeps_py_getitem
  | |- keeps _ (py_first _) => apply keeps_py_first
  | |- keeps _ (json_loads _) => apply keeps_json_loads
  | |- keeps _ (expect_int _) => apply keeps_expect_int
  | |- keeps _ (expect_str _) => apply keeps_expect_str
  | |- keeps _ (try_except _ _) =>
      apply keeps_try_except;
      [|let e := fresh "e" in let h := fresh "h" in let E := fresh "E" in
        intros e h E; destruct e; simplify_eq]
  | |- keeps _ (if ?b then _ else _) => destruct b
  | |- keeps _ (match ?x with _ => _ end) => destruct x
  | |- ∀ _, _ => intro
  end.

(** A property kept by the steps a task takes between two [await]s is
    kept by every method, and holds in every state of an execution. *)
Section methods.
Context (P : state → Prop).
Hypothesis P_emit : ∀ es s, P s → P (emit es s).
Hypothesis P_closed : ∀ c s, P s → P (set_closed c s).
Hypothesis P_write : ∀ name f,
  (∀ n, momentums (f n) = momentums n) → keeps P (update name f).
Hypothesis P_stale : ∀ name,
  keeps P (update name (λ n, set_momentums (mark_stale <$> momentums n) n)).
Hypothesis P_push : ∀ name h x now, keeps P (update_momentums name h x now).

Lemma keeps_logger lv m : keeps P (logger lv m).
Proof. apply keeps_modify. intros s. apply P_emit. Qed.

Lemma keeps_sleep t : keeps P (sleep t).
Proof. apply keeps_modify. intros s. apply P_emit. Qed.

Lemma keeps_close h : keeps P (close h).
Proof. apply keeps_modify. intros s. apply P_closed. Qed.

Lemma keeps_check_for_fork : keeps P check_for_fork.
Proof. intros s Hs. rewrite check_for_fork_report. by apply P_emit. Qed.

Ltac effect :=
  first [ apply keeps_logger | apply keeps_sleep | apply keeps_close
        | apply keeps_check_for_fork | apply P_stale | apply P_push
        | by apply P_write ].

Lemma keeps_handle_disconnection name : keeps P (handle_disconnection name).
Proof. unfold handle_disconnection. repeat keeps_step; effect. Qed.

Lemma keeps_check_connection_health name now :
  keeps P (check_connection_health name now).
Proof.
  unfold check_connection_health.
  repeat keeps_step; first [apply keeps_handle_disconnection | effect].
Qed.

Lemma keeps_connect_node name env : keeps P (connect_node name env).
Proof.
  unfold connect_node.
  repeat keeps_step; first [apply keeps_handle_disconnection | effect].
Qed.

Lemma keeps_receive name env : keeps P (receive name env).
Proof. unfold receive. repeat keeps_step; effect. Qed.

Lemma keeps_monitor_node_round name env : keeps P (monitor_node_round name env).
Proof.
  unfold monitor_node_round.
  repeat keeps_step;
    first [apply keeps_connect_node | apply keeps_check_connection_health
          | apply keeps_receive | effect].
Qed.

Lemma keeps_monitor_node name envs : keeps P (monitor_node name envs).
Proof.
  induction envs as [|env envs IH]; simpl; [apply keeps_ret|].
  apply keeps_bind; [apply keeps_monitor_node_round|].
  intros []; [apply keeps_ret | done].
Qed.

Lemma reachable_invariant s : P init → reachable s → P s.
Proof.
  intros Hinit.
  induction 1 as [|name f s Hf _ IH|name s _ IH|es s _ IH|h s _ IH
                  |name h x now s _ IH|s _ IH|name s _ IH|name now s _ IH
                  |name env s _ IH|name env s _ IH|name env s _ IH].
  - done.
  - by apply P_write.
  - by apply P_stale.
  - by apply P_emit.
  - by apply P_closed.
  - by apply P_push.
  - by apply keeps_check_for_fork.
  - by apply keeps_handle_disconnection.
  - by apply keeps_check_connection_health.
  - by apply keeps_connect_node.
  - by apply keeps_receive.
  - by apply keeps_monitor_node_round.
Qed.
End methods.

Lemma every_assoc (Q : NodeState → Prop) name s n :
  every Q s → assoc name (nodes s) = Some n → Q n.
Proof.
  unfold every. rewrite Forall_forall. intros H Hn.
  by apply H, (assoc_value name).
Qed.

Lemma keeps_update (Q : NodeState → Prop) name f :
  (∀ n, Q n → Q (f n)) → keeps (every Q) (update name f).
Proof.
  intros Hf. apply keeps_bind; [apply keeps_node|]. intros _.
  apply keeps_modify. intros s. by apply assoc_alter_Forall.
Qed.

(** ** The momentum buffer *)

Lemma update_momentums_eq name h x now s n :
  assoc name (nodes s) = Some n →
  update_momentums name h x now s =
    (Ok tt, set_nodes (assoc_alter (appended h x now) name (nodes s)) s).
Proof.
  intros Hn. unfold update_momentums.
  unfold bind at 1. rewrite (node_eq _ _ _ Hn).
  rewrite (update_then _ _ _ _ _ Hn).
  pose proof (assoc_after_alter _
    (λ n, set_momentums (momentums n ++ [mkMomentum h x now false]) n) _ _ Hn) as H1.
  unfold bind at 1. rewrite (node_eq _ _ _ H1).
  cbn [momentums set_momentums].
  case_bool_decide as Hlen.
  - rewrite (update_eq _ _ _ _ H1). unfold set_nodes. cbn [nodes closed trace].
    rewrite assoc_alter_compose. do 2 f_equal.
    apply (assoc_alter_ext _ _ _ _ _ Hn). unfold appended. cbn.
    by rewrite bool_decide_eq_true_2.
  - unfold ret. do 2 f_equal.
    apply (assoc_alter_ext _ _ _ _ _ Hn). unfold appended. cbn.
    by rewrite bool_decide_eq_false_2.
Qed.

Lemma update_momentums_missing name h x now s :
  assoc name (nodes s) = None →
  update_momentums name h x now s = (Raise KeyError, s).
Proof.
  intros H. unfold update_momentums, bind. by rewrite (node_missing _ _ H).
Qed.

Lemma last_items_length {A} k (l : list A) : (length (last_items k l) ≤ k)%nat.
Proof. unfold last_items. rewrite length_drop. lia. Qed.

Lemma appended_within_bound h x now n : within_bound (appended h x now n).
Proof.
  unfold within_bound, appended. cbn. case_bool_decide; [|lia].
  apply last_items_length.
Qed.

(** A full buffer drops its first entry; a shorter one only grows. *)
Lemma appended_full h x now n :
  length (momentums n) = 5%nat →
  momentums (appended h x now n) =
    drop 1 (momentums n) ++ [mkMomentum h x now false].
Proof.
  intros Hlen. unfold appended. cbn.
  rewrite bool_decide_eq_true_2 by (rewrite length_app; simpl; lia).
  unfold last_items. rewrite length_app, Hlen. simpl.
  rewrite drop_app_le by lia. done.
Qed.

Lemma appended_room h x now n :
  (length (momentums n) < 5)%nat →
  momentums (appended h x now n) = momentums n ++ [mkMomentum h x now false].
Proof.
  intros Hlen. unfold appended. cbn.
  by rewrite bool_decide_eq_false_2 by (rewrite length_app; simpl; lia).
Qed.

Lemma keeps_update_momentums name h x now :
  keeps bounded (update_momentums name h x now).
Proof.
  intros s Hs. destruct (assoc name (nodes s)) as [n|] eqn:Hn.
  - rewrite (update_momentums_eq _ _ _ _ _ _ Hn). cbn.
    apply assoc_alter_Forall; [|done]. intros v _. apply appended_within_bound.
  - by rewrite (update_momentums_missing _ _ _ _ _ Hn).
Qed.

(** ** Executions *)

Lemma reachable_bounded s : reachable s → bounded s.
Proof.
  apply (reachable_invariant bounded).
  - done.
  - done.
  - intros name f Hf. apply keeps_update.
    intros n. unfold within_bound. by rewrite Hf.
  - intros name. apply keeps_update.
    intros n. unfold within_bound. cbn. by rewrite length_fmap.
  - apply keeps_update_momentums.
  - unfold bounded, every, init, init_nodes, within_bound. cbn.
    repeat constructor.
Qed.




Lemma reachable_passes name envs s : reachable s → reachable (passes name envs s).
Proof.
  revert s. induction envs as [|env envs IH]; intros s Hs; simpl; [done|].
  apply IH. by constructor.
Qed.

(** C7.  In every state of an execution every node holds at most five
    momentums.  On a registered node [update_momentums] returns normally;
    on a buffer of five it drops the first (oldest) entry and keeps the
    others in order, followed by the new momentum; on a shorter buffer it
    appends the new momentum at the end.  Other nodes are untouched. *)
Theorem momentums_bounded_fifo :
  (∀ s, reachable s →
     ∀ name n, assoc name (nodes s) = Some n → (length (momentums n) ≤ 5)%nat)
  ∧
  (∀ name h x now s n,
     assoc name (nodes s) = Some n →
     ∃ s' n',
       update_momentums name h x now s = (Ok tt, s') ∧
       assoc name (nodes s') = Some n' ∧
       (length (momentums n) = 5%nat →
        momentums n' = drop 1 (momentums n) ++ [mkMomentum h x now false]) ∧
       ((length (momentums n) < 5)%nat →
        momentums n' = momentums n ++ [mkMomentum h x now false]) ∧
       (∀ other, other ≠ name → assoc other (nodes s') = assoc other (nodes s))).
Proof.
  split.
  - intros s Hs name n Hn.
    apply (every_assoc within_bound name s n); [|done].
    by apply reachable_bounded.
  - intros name h x now s n Hn. eexists _, (appended h x now n).
    split; [apply (update_momentums_eq _ _ _ _ _ _ Hn)|]. cbn [nodes set_nodes].
    split_and!.
    + by rewrite assoc_alter_eq, Hn.
    + apply appended_full.
    + apply appended_room.
    + intros other Hne. by apply assoc_alter_ne.
Qed.

Lemma momentums_bounded_fifo_witness :
  (∃ n, assoc "hc1" (nodes (passes "hc1" seven_pushes init)) = Some n ∧
        (length (momentums n) ≤ 5)%nat)
  ∧
  (∃ s' n',
     update_momentums "hc1" 6 "f" 16%float full = (Ok tt, s') ∧
     assoc "hc1" (nodes s') = Some n' ∧
     momentums n' =
       drop 1 (momentums full_node) ++ [mkMomentum 6 "f" 16%float false]).
Proof.
  split.
  - eexists. split; [vm_compute; reflexivity|].
    eapply (proj1 momentums_bounded_fifo (passes "hc1" seven_pushes init)
              (reachable_passes _ _ _ reach_init) "hc1"%string).
    vm_compute. reflexivity.
  - destruct (proj2 momentums_bounded_fifo "hc1"%string 6 "f"%string 16%float
                full full_node eq_refl)
      as (s' & n' & Hrun & Hn' & Hfull & _).
    exists s', n'. split_and!; [done | done | by apply Hfull].
Defined.

(** ** The receive path of monitor_node *)

Lemma assoc_None {A} k (l : list (string * A)) : assoc k l = None ↔ k ∉ l.*1.
Proof.
  split.
  - intros H Hin. apply assoc_key in Hin as [v Hv]. congruence.
  - intros H. destruct (assoc k l) as [v|] eqn:Hv; [|done].
    destruct H. apply assoc_elem_of in Hv.
    apply list_elem_of_fmap. by exists (k, v).
Qed.

(** Such a message is logged as unexpected and dropped: only
    [last_message_time] is written. *)
Lemma receive_unexpected_format name env s n w fr kvs :
  assoc name (nodes s) = Some n →
  websocket n = Some w →
  received env = inr fr →
  loads fr = Some (JObject kvs) →
  no_push kvs →
  receive name env s =
    (Ok tt,
     emit [Logged WARNING (UnexpectedFormat name (text fr))]
       (set_nodes
          (assoc_alter (set_last_message_time (received_time env)) name (nodes s))
          s)).
Proof.
  intros Hn Hw Hrecv Hloads Hshape. unfold receive.
  unfold bind at 1. rewrite (node_eq _ _ _ Hn), Hw, Hrecv.
  unfold bind at 1, await, ret at 1. rewrite (update_then _ _ _ _ _ Hn).
  unfold bind at 1, json_loads. rewrite Hloads. unfold ret at 1.
  unfold bind at 1, py_in at 1, ret at 1.
  destruct Hshape as [Hnone|(ps & Hps & Hres)].
  - rewrite bool_decide_eq_false_2 by by apply assoc_None.
    unfold bind at 1, ret at 1. done.
  - rewrite bool_decide_eq_true_2.
    2:{ destruct (decide ("params"%string ∈ kvs.*1)) as [|Hno]; [done|].
        apply assoc_None in Hno. congruence. }
    unfold bind at 1 2, py_getitem at 1. rewrite Hps. unfold ret at 1.
    unfold py_in, ret at 1.
    rewrite bool_decide_eq_false_2 by by apply assoc_None.
    done.
Qed.

Lemma monitor_node_round_unexpected_format name env s n w fr kvs :
  shutdown_at_top env = false →
  assoc name (nodes s) = Some n →
  is_connected n = true →
  websocket n = Some w →
  timed_out (health_time env) (last_message_time n) = false →
  received env = inr fr →
  loads fr = Some (JObject kvs) →
  no_push kvs →
  monitor_node_round name env s =
    (Ok Continue,
     emit [Logged WARNING (UnexpectedFormat name (text fr))]
       (set_nodes
          (assoc_alter (set_last_message_time (received_time env)) name (nodes s))
          s)).
Proof.
  intros Hshut Hn Hc Hw Hfresh Hrecv Hloads Hshape.
  unfold monitor_node_round, try_except at 1. rewrite Hshut.
  unfold bind at 1. rewrite (node_eq _ _ _ Hn), Hc. cbn [negb].
  unfold bind at 1, ret at 1. cbn [negb].
  unfold bind at 1, check_connection_health.
  unfold bind at 1. rewrite (node_eq _ _ _ Hn), Hc, Hfresh. cbn [negb].
  unfold ret at 1. unfold bind at 1. rewrite (node_eq _ _ _ Hn), Hc. cbn [negb].
  unfold try_except, bind.
  by rewrite (receive_unexpected_format _ _ _ _ _ _ _ Hn Hw Hrecv Hloads Hshape).
Qed.

(** C4.  What the loop does with two messages that are not of the push
    shape, on a connected node: [result[0]] raises IndexError on the first,
    ['params' in data] raises TypeError on the second; the catch-all handler
    logs an error, marks the node not connected and sleeps, so the next pass
    reconnects.  An object without [params] is logged and dropped, and the
    node stays connected. *)
Theorem monitor_node_round_malformed :
  monitor_node_round "hc1" (answering (inr empty_result) 61) live =
    (Ok Continue, after_error IndexError 61)
  ∧ monitor_node_round "hc1" (answering (inr null_text) 61) live =
    (Ok Continue, after_error TypeError 61)
  ∧ monitor_node_round "hc1"
      (answering (inr (mkFrame "{'id': 1}" (Some (JObject [("id", JInt 1)])))) 61)
      live =
    (Ok Continue,
     mkState [("hc1", set_last_message_time 61 live_node);
              ("zenonhub", NodeState_default); ("atsocy", NodeState_default)]%string
       ∅ [Logged WARNING (UnexpectedFormat "hc1" "{'id': 1}")]).
Proof. split_and!; reflexivity. Qed.

(** C5.  The transport closes under a connected node holding two fresh
    momentums: the handler of line 233 logs, marks the node not connected
    and sleeps.  The subscription id and the handle are still set, and the
    momentums are as they were, not stale. *)
Theorem monitor_node_round_connection_closed :
  monitor_node_round "hc1" (answering (inl ConnectionClosed) 61) live =
    (Ok Continue,
     mkState [("hc1", set_is_connected false live_node);
              ("zenonhub", NodeState_default); ("atsocy", NodeState_default)]%string
       ∅ [Logged WARNING (ClosedReconnect "hc1"); Slept 5])
  ∧ subscription_id (set_is_connected false live_node) = Some (JString "1")
  ∧ websocket (set_is_connected false live_node) = Some 7%nat
  ∧ momentums (set_is_connected false live_node) = held
  ∧ Forall (λ m, is_stale m = false) held.
Proof. split_and!; try reflexivity. repeat constructor. Qed.

(** ** connect_node: no acknowledgment

    The sibling path of the handlers of [monitor_node]: when the wait for
    the subscription acknowledgment times out or fails, [connect_node] runs
    disconnection handling before returning to the loop, which then sleeps. *)

Lemma node_then {A} name (k : NodeState → M A) s n :
  assoc name (nodes s) = Some n → (x ← node name ; k x) s = k n s.
Proof. intros H. unfold bind. by rewrite (node_eq _ _ _ H). Qed.

Lemma disconnected_absorbs h n :
  disconnected (set_is_connected false (set_websocket (Some h) n)) = disconnected n.
Proof. done. Qed.

Lemma connect_node_no_ack name env s n h e :
  assoc name (nodes s) = Some n →
  opened env = inr h →
  sent env = inr tt →
  ack env = inl e →
  ∃ t,
    connect_node name env s =
      (Ok tt, mkState (assoc_alter disconnected name (nodes s))
                      ({[h]} ∪ closed s) t).
Proof.
  intros Hn Hopen Hsent Hack. destruct s as [r c t]. cbn [nodes closed] in *.
  assert (∀ t' lv m,
    (logger lv m ;;
     update name (set_is_connected false) ;;
     handle_disconnection name)
      (mkState (assoc_alter (set_websocket (Some h)) name r) c t') =
    (Ok tt, mkState (assoc_alter disconnected name r) ({[h]} ∪ c)
              (t' ++ [Logged lv m]))) as Hhandler.
  { intros t' lv m. rewrite logger_then. unfold emit. cbn [nodes closed trace].
    erewrite update_then; [|cbn [nodes]; rewrite assoc_alter_eq, Hn; reflexivity].
    unfold set_nodes. cbn [nodes closed trace].
    erewrite handle_disconnection_eq;
      [|cbn [nodes]; rewrite !assoc_alter_eq, Hn; reflexivity].
    cbn [nodes closed trace websocket set_is_connected set_websocket closing fmap option_fmap option_map].
    rewrite !assoc_alter_compose. do 2 f_equal.
    all: by apply (assoc_alter_ext _ _ _ _ _ Hn). }
  unfold connect_node, try_except at 1.
  rewrite logger_then. unfold emit. cbn [nodes closed trace].
  unfold bind at 1. rewrite Hopen. unfold await at 1, ret at 1.
  erewrite update_then; [|exact Hn].
  unfold set_nodes. cbn [nodes closed trace].
  rewrite logger_then. unfold emit. cbn [nodes closed trace].
  erewrite node_then; [|cbn [nodes]; rewrite assoc_alter_eq, Hn; reflexivity].
  cbn [websocket set_websocket]. rewrite Hsent.
  unfold bind at 1, await at 1, ret at 1.
  unfold try_except at 1. unfold bind at 1. rewrite Hack. unfold await, raise.
  destruct e; rewrite Hhandler; eauto.
Qed.

(** * Further properties *)

(** ** check_for_fork: waiting for data, and no exception *)

(** X1.  All nodes connected and one of them without a height or without a
    hash: the check logs "Waiting for data from all nodes..." and returns,
    whatever the other nodes report. *)
Theorem check_for_fork_waiting (s : state) :
  (∀ n, n ∈ values (nodes s) → is_connected n = true) →
  (∃ n, n ∈ values (nodes s) ∧ (last_height n = None ∨ last_hash n = None)) →
  check_for_fork s = (Ok tt, emit [Logged INFO WaitingForData] s).
Proof.
  intros Hconn (n & Hn & Hnone).
  rewrite check_for_fork_report. unfold fork_report.
  rewrite (proj2 (all_connected_forallb _) Hconn). cbn [negb].
  destruct (existsb no_data (values (nodes s))) eqn:Hex; [done|].
  rewrite no_data_existsb in Hex. destruct (Hex n Hn) as [H1 H2].
  by destruct Hnone.
Qed.

Lemma check_for_fork_waiting_witness :
  check_for_fork
    (scenario (reporting 1 true 100 "H1")
       (set_last_hash None (reporting 2 true 100 "H1"))
       (reporting 3 true 99 "H2")) =
  (Ok tt,
   emit [Logged INFO WaitingForData]
     (scenario (reporting 1 true 100 "H1")
        (set_last_hash None (reporting 2 true 100 "H1"))
        (reporting 3 true 99 "H2"))).
Proof.
  apply check_for_fork_waiting; [each_node; done|].
  exists (set_last_hash None (reporting 2 true 100 "H1")).
  cbn. split; [set_solver | by right].
Defined.



(** ** check_connection_health: when it acts *)

(** X3.  On a registered node the health check leaves the state exactly as
    it was unless the node is marked connected and its last message is more
    than 30 seconds old; it never raises. *)
Theorem check_connection_health_acts (name : string) (now : float)
    (s : state) (n : NodeState) :
  assoc name (nodes s) = Some n →
  (∃ s', check_connection_health name now s = (Ok tt, s')) ∧
  (check_connection_health name now s = (Ok tt, s) ↔
   ¬ (is_connected n = true ∧ timed_out now (last_message_time n) = true)).
Proof.
  intros Hn.
  destruct (is_connected n) eqn:Hc;
    [destruct (timed_out now (last_message_time n)) eqn:Ht|].
  - assert (check_connection_health name now s =
            (Ok tt, mkState (assoc_alter disconnected name (nodes s))
                      (closing (websocket n) (closed s))
                      (trace s ++ [Logged WARNING (NoMessages name MESSAGE_TIMEOUT)])))
      as Hrun.
    { unfold check_connection_health, bind at 1.
      rewrite (node_eq _ _ _ Hn), Hc, Ht. cbn [negb]. rewrite logger_then.
      by erewrite handle_disconnection_eq by exact Hn. }
    rewrite Hrun. split; [by eexists|]. split; [|by intros []].
    intros Heq. exfalso.
    apply (f_equal (λ r, length (trace r.2))) in Heq. cbn in Heq.
    rewrite length_app in Heq. simpl in Heq. lia.
  - assert (check_connection_health name now s = (Ok tt, s)) as Hrun.
    { unfold check_connection_health, bind.
      by rewrite (node_eq _ _ _ Hn), Hc, Ht. }
    rewrite Hrun. split; [by eexists|]. split; [by intros _ [_ ?]|done].
  - assert (check_connection_health name now s = (Ok tt, s)) as Hrun.
    { unfold check_connection_health, bind.
      by rewrite (node_eq _ _ _ Hn), Hc. }
    rewrite Hrun. split; [by eexists|]. split; [by intros _ [? _]|done].
Qed.

Lemma check_connection_health_acts_witness :
  (∃ s', check_connection_health "hc1" 70%float live = (Ok tt, s')) ∧
  (check_connection_health "hc1" 70%float live = (Ok tt, live) ↔
   ¬ (is_connected live_node = true ∧
      timed_out 70%float (last_message_time live_node) = true)).
Proof. apply (check_connection_health_acts "hc1" 70%float live live_node eq_refl). Defined.

(** ** monitor_node: a pass on a connected node *)

(** On a connected node that is not shut down and whose health check
    passes, the pass is the receive path under the two handlers. *)
Lemma monitor_node_round_connected name env s n :
  shutdown_at_top env = false →
  assoc name (nodes s) = Some n →
  is_connected n = true →
  timed_out (health_time env) (last_message_time n) = false →
  monitor_node_round name env s =
    match receive name env s with
    | (Ok _, s') => (Ok Continue, s')
    | (Raise TimeoutError, s') => (Ok Continue, s')
    | (Raise e, s') =>
        if is_Some_dec (assoc name (nodes s')) then (Ok Continue, recovered name env e s')
        else if shutdown_in_handler env then (Ok Continue, s')
        else (Raise KeyError, emit [failure_record name e] s')
    | (Unmodelled, s') => (Unmodelled, s')
    end.
Proof.
  intros Hshut Hn Hc Hfresh.
  unfold monitor_node_round, try_except at 1. rewrite Hshut.
  unfold bind at 1. rewrite (node_eq _ _ _ Hn), Hc. cbn [negb].
  unfold bind at 1, ret at 1. cbn [negb].
  unfold bind at 1, check_connection_health.
  unfold bind at 1. rewrite (node_eq _ _ _ Hn), Hc, Hfresh. cbn [negb].
  unfold ret at 1. unfold bind at 1. rewrite (node_eq _ _ _ Hn), Hc. cbn [negb].
  unfold try_except, bind at 1.
  destruct (receive name env s) as [[[]|e|] s']; [done| |done].
  assert (∀ lv m,
    (if negb (shutdown_in_handler env)
     then logger lv m ;; update name (set_is_connected false) ;; sleep 5 ;;
          ret Continue
     else ret Continue) s' =
    if is_Some_dec (assoc name (nodes s'))
    then (Ok Continue,
          if shutdown_in_handler env then s'
          else emit [Logged lv m; Slept 5]
                 (set_nodes (assoc_alter (set_is_connected false) name (nodes s')) s'))
    else if shutdown_in_handler env then (Ok Continue, s')
    else (Raise KeyError, emit [Logged lv m] s')) as Hhandler.
  { intros lv m. destruct (shutdown_in_handler env); cbn [negb].
    - by destruct (is_Some_dec _).
    - rewrite logger_then.
      destruct (is_Some_dec (assoc name (nodes s'))) as [[n' Hn']|Hnone].
      + erewrite update_then by exact Hn'. unfold bind, sleep, modify, ret.
        unfold emit, set_nodes. cbn. by rewrite <- app_assoc.
      + unfold bind. rewrite update_missing; [done|].
        cbn. by apply eq_None_not_Some. }
  unfold recovered, failure_record.
  destruct e; cbn -[is_Some_dec]; try apply Hhandler.
  done.
Qed.

(** X4.  [recv] raises on a connected node whose health check passes.  A
    poll timeout leaves the state as it was.  Any other exception, when the
    shutdown flag is found set, leaves it as it was too: the node stays
    marked connected.  Otherwise the pass logs the failure, marks the node
    not connected, sleeps 5 seconds and goes on; the momentums, the
    subscription id and the handle of the node are not touched. *)
Theorem monitor_node_round_recv_raises name env s n w e :
  shutdown_at_top env = false →
  assoc name (nodes s) = Some n →
  is_connected n = true →
  websocket n = Some w →
  timed_out (health_time env) (last_message_time n) = false →
  received env = inl e →
  monitor_node_round name env s =
    (Ok Continue,
     match e with
     | TimeoutError => s
     | _ => recovered name env e s
     end).
Proof.
  intros Hshut Hn Hc Hw Hfresh Hrecv.
  rewrite (monitor_node_round_connected _ _ _ _ Hshut Hn Hc Hfresh).
  assert (receive name env s = (Raise e, s)) as ->.
  { unfold receive, bind at 1. rewrite (node_eq _ _ _ Hn), Hw, Hrecv.
    by unfold bind. }
  destruct (is_Some_dec (assoc name (nodes s))) as [_|Hnone].
  - by destruct e.
  - destruct Hnone. by rewrite Hn.
Qed.

Lemma monitor_node_round_recv_raises_witness :
  monitor_node_round "hc1" (answering (inl TimeoutError) 61) live =
    (Ok Continue, live)
  ∧ monitor_node_round "hc1" (answering (inl ConnectionClosed) 61) live =
    (Ok Continue, recovered "hc1" (answering (inl ConnectionClosed) 61)
                    ConnectionClosed live).
Proof.
  split.
  - apply (monitor_node_round_recv_raises "hc1" (answering (inl TimeoutError) 61)
             live live_node 7%nat TimeoutError); reflexivity.
  - apply (monitor_node_round_recv_raises "hc1"
             (answering (inl ConnectionClosed) 61) live live_node 7%nat
             ConnectionClosed); reflexivity.
Defined.

(** X5.  The loop ends at the first pass that finds the shutdown flag set:
    it logs the signal, touches no node, and the answers prepared for later
    passes are never used. *)
Theorem monitor_node_stops name env before after s :
  shutdown_at_top env = true →
  monitor_node name (before ++ env :: after) s =
    monitor_node name (before ++ [env]) s
  ∧ monitor_node name (env :: after) s =
    (Ok tt, emit [Logged INFO (ShutdownSignal name)] s).
Proof.
  intros Hshut.
  assert (∀ rest s, monitor_node name (env :: rest) s =
                    (Ok tt, emit [Logged INFO (ShutdownSignal name)] s)) as Hstop.
  { intros rest s0. simpl. unfold bind at 1, monitor_node_round, try_except.
    by rewrite Hshut. }
  split; [|apply Hstop].
  revert s. induction before as [|e0 before IH]; intros s.
  - simpl app. by rewrite !Hstop.
  - simpl. unfold bind.
    destruct (monitor_node_round name e0 s) as [[[]|?|] s'];
      first [done | apply IH].
Qed.

Lemma monitor_node_stops_witness :
  monitor_node "hc1" (seven_pushes ++ shutdown_pass :: seven_pushes) init =
  monitor_node "hc1" (seven_pushes ++ [shutdown_pass]) init
  ∧ monitor_node "hc1" (shutdown_pass :: seven_pushes) init =
    (Ok tt, emit [Logged INFO (ShutdownSignal "hc1")] init).
Proof.
  apply (monitor_node_stops "hc1" shutdown_pass seven_pushes seven_pushes init).
  reflexivity.
Defined.

(** ** The receive path on a notification *)

Lemma assoc_Some_key {A} k (l : list (string * A)) v :
  assoc k l = Some v → k ∈ l.*1.
Proof.
  intros H. destruct (decide (k ∈ l.*1)) as [|Hno]; [done|].
  apply assoc_None in Hno. congruence.
Qed.

(** Up to the first use of the momentum object. *)
Lemma receive_notification name env s n w fr m :
  assoc name (nodes s) = Some n →
  websocket n = Some w →
  received env = inr fr →
  notifies fr m →
  receive name env s =
    (hv ← py_getitem (JObject m) "height" ;
     h ← expect_int hv ;
     update name (set_last_height (Some h)) ;;
     xv ← py_getitem (JObject m) "hash" ;
     x ← expect_str xv ;
     update name (set_last_hash (Some x)) ;;
     update_momentums name h x (momentum_time env) ;;
     logger INFO (Processed name h x) ;;
     check_for_fork)
      (set_nodes
         (assoc_alter (set_last_message_time (received_time env)) name (nodes s))
         s).
Proof.
  intros Hn Hw Hrecv (kvs & ps & rest & Hloads & Hps & Hres).
  unfold receive.
  unfold bind at 1. rewrite (node_eq _ _ _ Hn), Hw, Hrecv.
  unfold bind at 1, await, ret at 1. rewrite (update_then _ _ _ _ _ Hn).
  unfold bind at 1, json_loads. rewrite Hloads. unfold ret at 1.
  unfold bind at 1, py_in at 1, ret at 1.
  rewrite bool_decide_eq_true_2 by by eapply assoc_Some_key.
  unfold bind at 1. unfold bind at 1, py_getitem at 1. rewrite Hps.
  unfold ret at 1. unfold py_in at 1, ret at 1.
  rewrite bool_decide_eq_true_2 by by eapply assoc_Some_key.
  unfold bind at 1, py_getitem at 1. rewrite Hps. unfold ret at 1.
  unfold bind at 1, py_getitem at 1. rewrite Hres. unfold ret at 1.
  unfold bind at 1, py_first, ret at 1. done.
Qed.

Lemma appended_last h x now n :
  last (momentums (appended h x now n)) = Some (mkMomentum h x now false).
Proof.
  unfold appended. cbn. case_bool_decide as Hlen; [|apply last_snoc].
  unfold last_items. rewrite length_app in *. simpl in *.
  rewrite drop_app_le by lia. apply last_snoc.
Qed.

(** X6.  A notification whose first momentum has an integer height [h] and
    a string hash [x], received on a registered node that holds a handle:
    the node's last height and hash become [h] and [x], its last message
    time the time of receipt, the momentum is appended to its buffer as by
    [update_momentums], one line is logged, and the pass then runs the fork
    check on that state.  The newest entry of the buffer is this momentum,
    not stale.  The connection fields of the node, the other nodes and the
    transport are as before. *)
Theorem receive_accepts name env s n w fr m h x :
  assoc name (nodes s) = Some n →
  websocket n = Some w →
  received env = inr fr →
  notifies fr m →
  assoc "height" m = Some (JInt h) →
  assoc "hash" m = Some (JString x) →
  ∃ s1 n1,
    receive name env s = check_for_fork s1 ∧
    assoc name (nodes s1) = Some n1 ∧
    last_height n1 = Some h ∧
    last_hash n1 = Some x ∧
    last_message_time n1 = received_time env ∧
    momentums n1 = momentums (appended h x (momentum_time env) n) ∧
    last (momentums n1) = Some (mkMomentum h x (momentum_time env) false) ∧
    is_connected n1 = is_connected n ∧
    websocket n1 = websocket n ∧
    subscription_id n1 = subscription_id n ∧
    (∀ other, other ≠ name → assoc other (nodes s1) = assoc other (nodes s)) ∧
    closed s1 = closed s ∧
    trace s1 = trace s ++ [Logged INFO (Processed name h x)].
Proof.
  intros Hn Hw Hrecv Hfr Hh Hx.
  rewrite (receive_notification _ _ _ _ _ _ _ Hn Hw Hrecv Hfr).
  exists (emit [Logged INFO (Processed name h x)]
            (set_nodes (assoc_alter (accepted h x env) name (nodes s)) s)),
         (accepted h x env n).
  split.
  - unfold bind at 1, py_getitem at 1. rewrite Hh. unfold ret at 1.
    unfold bind at 1, expect_int, ret at 1.
    pose proof (assoc_after_alter _ (set_last_message_time (received_time env))
                  _ _ Hn) as H1.
    rewrite (update_then _ _ _ _ _ H1).
    pose proof (assoc_after_alter _ (set_last_height (Some h)) _ _ H1) as H2.
    unfold bind at 1, py_getitem at 1. rewrite Hx. unfold ret at 1.
    unfold bind at 1, expect_str, ret at 1.
    rewrite (update_then _ _ _ _ _ H2).
    pose proof (assoc_after_alter _ (set_last_hash (Some x)) _ _ H2) as H3.
    unfold bind at 1. rewrite (update_momentums_eq _ _ _ _ _ _ H3).
    rewrite logger_then. f_equal.
    unfold emit, set_nodes. cbn [nodes closed trace].
    rewrite !assoc_alter_compose. do 2 f_equal.
    all: by apply (assoc_alter_ext _ _ _ _ _ Hn).
  - cbn [nodes closed trace emit set_nodes].
    rewrite assoc_alter_eq, Hn. split_and!; try done.
    + apply appended_last.
    + intros other Hne. by apply assoc_alter_ne.
Qed.

Lemma receive_accepts_witness :
  ∃ s1 n1,
    receive "hc1" (answering (inr (push 102 "H3")) 61) live = check_for_fork s1 ∧
    assoc "hc1" (nodes s1) = Some n1 ∧
    last_height n1 = Some 102 ∧
    last_hash n1 = Some "H3"%string ∧
    last_message_time n1 = 61%float ∧
    momentums n1 = momentums (appended 102 "H3" 61 live_node) ∧
    last (momentums n1) = Some (mkMomentum 102 "H3" 61 false) ∧
    is_connected n1 = is_connected live_node ∧
    websocket n1 = websocket live_node ∧
    subscription_id n1 = subscription_id live_node ∧
    (∀ other, other ≠ "hc1"%string →
              assoc other (nodes s1) = assoc other (nodes live)) ∧
    closed s1 = closed live ∧
    trace s1 = trace live ++ [Logged INFO (Processed "hc1" 102 "H3")].
Proof.
  apply (receive_accepts "hc1" (answering (inr (push 102 "H3")) 61) live
           live_node 7%nat (push 102 "H3")
           [("height", JInt 102); ("hash", JString "H3")]%string 102 "H3"%string);
    try reflexivity.
  by eexists _, _, _.
Defined.

(** X7.  A notification whose first momentum has an integer height [h] and
    no [hash] key: the pass stores the height and then raises KeyError.  The
    node's last hash and its momentums keep their earlier values, so the
    last height and the last hash no longer come from one momentum. *)
Theorem receive_without_hash name env s n w fr m h :
  assoc name (nodes s) = Some n →
  websocket n = Some w →
  received env = inr fr →
  notifies fr m →
  assoc "height" m = Some (JInt h) →
  assoc "hash" m = None →
  ∃ s1 n1,
    receive name env s = (Raise KeyError, s1) ∧
    assoc name (nodes s1) = Some n1 ∧
    last_height n1 = Some h ∧
    last_hash n1 = last_hash n ∧
    momentums n1 = momentums n ∧
    last_message_time n1 = received_time env ∧
    trace s1 = trace s.
Proof.
  intros Hn Hw Hrecv Hfr Hh Hx.
  rewrite (receive_notification _ _ _ _ _ _ _ Hn Hw Hrecv Hfr).
  unfold bind at 1, py_getitem at 1. rewrite Hh. unfold ret at 1.
  unfold bind at 1, expect_int, ret at 1.
  pose proof (assoc_after_alter _ (set_last_message_time (received_time env))
                _ _ Hn) as H1.
  rewrite (update_then _ _ _ _ _ H1).
  pose proof (assoc_after_alter _ (set_last_height (Some h)) _ _ H1) as H2.
  unfold bind at 1, py_getitem at 1. rewrite Hx. unfold raise.
  eexists _, _. split; [reflexivity|]. split; [exact H2|]. done.
Qed.

Lemma receive_without_hash_witness :
  ∃ s1 n1,
    receive "hc1" (answering (inr hashless) 61) live = (Raise KeyError, s1) ∧
    assoc "hc1" (nodes s1) = Some n1 ∧
    last_height n1 = Some 102 ∧
    last_hash n1 = last_hash live_node ∧
    momentums n1 = momentums live_node ∧
    last_message_time n1 = 61%float ∧
    trace s1 = trace live.
Proof.
  apply (receive_without_hash "hc1" (answering (inr hashless) 61) live
           live_node 7%nat hashless [("height", JInt 102)]%string 102);
    try reflexivity.
  by eexists _, _, _.
Defined.

(** ** connect_node: every outcome *)

(** The three lines shared by every failure path of [connect_node]. *)
Lemma connect_failure name r c t h n lv m :
  assoc name r = Some n →
  (logger lv m ;;
   update name (set_is_connected false) ;;
   handle_disconnection name)
    (mkState (assoc_alter (set_websocket (Some h)) name r) c t) =
  (Ok tt, mkState (assoc_alter disconnected name r) ({[h]} ∪ c)
            (t ++ [Logged lv m])).
Proof.
  intros Hn. rewrite logger_then. unfold emit. cbn [nodes closed trace].
  erewrite update_then; [|cbn [nodes]; rewrite assoc_alter_eq, Hn; reflexivity].
  unfold set_nodes. cbn [nodes closed trace].
  erewrite handle_disconnection_eq;
    [|cbn [nodes]; rewrite !assoc_alter_eq, Hn; reflexivity].
  cbn [nodes closed trace websocket set_is_connected set_websocket closing].
  rewrite !assoc_alter_compose. do 2 f_equal.
  all: by apply (assoc_alter_ext _ _ _ _ _ Hn).
Qed.

Lemma connect_failure_unopened name r c t n lv m :
  assoc name r = Some n →
  (logger lv m ;;
   update name (set_is_connected false) ;;
   handle_disconnection name) (mkState r c t) =
  (Ok tt, mkState (assoc_alter disconnected name r) (closing (websocket n) c)
            (t ++ [Logged lv m])).
Proof.
  intros Hn. rewrite logger_then. unfold emit. cbn [nodes closed trace].
  erewrite update_then; [|exact Hn].
  unfold set_nodes. cbn [nodes closed trace].
  erewrite handle_disconnection_eq;
    [|cbn [nodes]; rewrite !assoc_alter_eq, Hn; reflexivity].
  cbn [nodes closed trace websocket set_is_connected].
  rewrite !assoc_alter_compose. do 2 f_equal.
  all: by apply (assoc_alter_ext _ _ _ _ _ Hn).
Qed.

(** What [connect_node] leaves behind, by the answers it got. *)
Lemma connect_node_cases name env s n :
  assoc name (nodes s) = Some n →
  ∃ s',
    connect_node name env s = (Ok tt, s') ∧
    match acknowledged env with
    | Some (h, r) =>
        nodes s' = assoc_alter (connected_as h r (ack_time env)) name (nodes s) ∧
        closed s' = closed s
    | None =>
        nodes s' = assoc_alter disconnected name (nodes s) ∧
        closed s' = closing (handle_at_failure env n) (closed s)
    end.
Proof.
  intros Hn. destruct s as [r c t]. cbn [nodes closed] in *.
  destruct env as [o se a tm]. unfold acknowledged, handle_at_failure.
  cbn [opened sent ack ack_time].
  unfold connect_node, try_except at 1. cbn [opened sent ack ack_time].
  rewrite logger_then. unfold emit. cbn [nodes closed trace].
  destruct o as [e|h].
  { (* the handshake fails *)
    unfold bind at 1, await at 1, raise at 1.
    erewrite connect_failure_unopened by exact Hn. eauto. }
  unfold bind at 1, await at 1, ret at 1.
  erewrite update_then; [|exact Hn].
  unfold set_nodes. cbn [nodes closed trace].
  rewrite logger_then. unfold emit. cbn [nodes closed trace].
  erewrite node_then; [|cbn [nodes]; rewrite assoc_alter_eq, Hn; reflexivity].
  cbn [websocket set_websocket fmap option_fmap option_map].
  destruct se as [e|[]].
  { (* the send fails *)
    unfold bind at 1, await at 1, raise at 1.
    erewrite connect_failure by exact Hn. eauto. }
  unfold bind at 1, await at 1, ret at 1.
  unfold try_except at 1.
  destruct a as [e|fr].
  { (* no frame *)
    unfold bind at 1, await at 1, raise at 1.
    destruct e; erewrite connect_failure by exact Hn; eauto. }
  unfold bind at 1, await at 1, ret at 1.
  unfold bind at 1, json_loads.
  destruct (loads fr) as [j|].
  2:{ unfold raise at 1. erewrite connect_failure by exact Hn. eauto. }
  unfold ret at 1. rewrite logger_then. unfold emit. cbn [nodes closed trace].
  unfold bind at 1.
  destruct j as [| | | |str|l|kvs]; cbn [py_in];
    try (unfold raise at 1; erewrite connect_failure by exact Hn; by eauto).
  - (* a string *)
    unfold ret at 1. destruct (contains "result" str).
    + unfold bind at 1, py_getitem, raise at 1.
      erewrite connect_failure by exact Hn. eauto.
    + erewrite connect_failure by exact Hn. eauto.
  - (* a list *)
    unfold ret at 1. destruct (existsb (is_str "result") l).
    + unfold bind at 1, py_getitem, raise at 1.
      erewrite connect_failure by exact Hn. eauto.
    + erewrite connect_failure by exact Hn. eauto.
  - (* an object *)
    unfold ret at 1. destruct (assoc "result" kvs) as [res|] eqn:Hres.
    + rewrite bool_decide_eq_true_2 by by eapply assoc_Some_key.
      unfold bind at 1, py_getitem. rewrite Hres. unfold ret at 1.
      erewrite update_then;
        [|cbn [nodes]; rewrite assoc_alter_eq, Hn; reflexivity].
      unfold set_nodes. cbn [nodes closed trace].
      erewrite update_then;
        [|cbn [nodes]; rewrite !assoc_alter_eq, Hn; reflexivity].
      unfold set_nodes. cbn [nodes closed trace].
      erewrite update_then;
        [|cbn [nodes]; rewrite !assoc_alter_eq, Hn; reflexivity].
      unfold set_nodes. cbn [nodes closed trace].
      unfold logger, modify, emit. cbn [nodes closed trace].
      eexists. split; [reflexivity|]. cbn [nodes closed]. split; [|done].
      rewrite !assoc_alter_compose.
      by apply (assoc_alter_ext _ _ _ _ _ Hn).
    + rewrite bool_decide_eq_false_2 by by apply assoc_None.
      erewrite connect_failure by exact Hn. eauto.
Qed.

(** X8.  On a registered node [connect_node] always returns normally.  If
    the handshake, the send and the wait for the acknowledgment succeed and
    the frame decodes to an object with a [result] key, the node ends marked
    connected, holding the new handle, with the result as subscription id
    and the time of the acknowledgment as last message time; its momentums
    and last height and hash are untouched and no handle is closed, so a
    handle the node still held is dropped without being closed.  In every
    other case the node ends as after disconnection handling, and the handle
    just opened (the one held before, if the handshake failed) is closed. *)
Theorem connect_node_outcome name env s n :
  assoc name (nodes s) = Some n →
  ∃ s',
    connect_node name env s = (Ok tt, s') ∧
    match acknowledged env with
    | Some (h, r) =>
        nodes s' = assoc_alter (connected_as h r (ack_time env)) name (nodes s) ∧
        closed s' = closed s
    | None =>
        nodes s' = assoc_alter disconnected name (nodes s) ∧
        closed s' = closing (handle_at_failure env n) (closed s)
    end.
Proof. apply connect_node_cases. Qed.

Lemma connect_node_outcome_witness :
  ∃ s',
    connect_node "zenonhub" (subscribed 4%nat) live = (Ok tt, s') ∧
    nodes s' = assoc_alter (connected_as 4%nat (JString "a1") 10%float) "zenonhub"
                 (nodes live) ∧
    closed s' = closed live.
Proof.
  apply (connect_node_outcome "zenonhub" (subscribed 4%nat) live NodeState_default).
  reflexivity.
Defined.

(** ** Registered nodes stay registered *)

Lemma assoc_alter_is_Some {A} (f : A → A) k k' (l : list (string * A)) :
  is_Some (assoc k (assoc_alter f k' l)) ↔ is_Some (assoc k l).
Proof.
  destruct (decide (k' = k)) as [->|Hne].
  - rewrite assoc_alter_eq. apply fmap_is_Some.
  - by rewrite assoc_alter_ne.
Qed.

Section registered.
Context (name0 : string).

Lemma registered_emit es s : registered name0 s → registered name0 (emit es s).
Proof. done. Qed.

Lemma registered_closed c s :
  registered name0 s → registered name0 (set_closed c s).
Proof. done. Qed.

Lemma registered_update name f : keeps (registered name0) (update name f).
Proof.
  apply keeps_bind; [apply keeps_node|]. intros _.
  apply keeps_modify. intros s. unfold registered. cbn.
  by rewrite assoc_alter_is_Some.
Qed.

Lemma registered_update_momentums name h x now :
  keeps (registered name0) (update_momentums name h x now).
Proof.
  intros s Hs. destruct (assoc name (nodes s)) as [n|] eqn:Hn.
  - rewrite (update_momentums_eq _ _ _ _ _ _ Hn). unfold registered. cbn.
    by rewrite assoc_alter_is_Some.
  - by rewrite (update_momentums_missing _ _ _ _ _ Hn).
Qed.

Ltac registered_facts :=
  first [ exact registered_emit | exact registered_closed
        | intros; apply registered_update | exact registered_update_momentums ].



Lemma registered_check_for_fork : keeps (registered name0) check_for_fork.
Proof. apply keeps_check_for_fork; registered_facts. Qed.

Lemma registered_handle_disconnection name :
  keeps (registered name0) (handle_disconnection name).
Proof. apply keeps_handle_disconnection; registered_facts. Qed.


Lemma registered_connect_node name env :
  keeps (registered name0) (connect_node name env).
Proof. apply keeps_connect_node; registered_facts. Qed.


Lemma registered_monitor_node_round name env :
  keeps (registered name0) (monitor_node_round name env).
Proof. apply keeps_monitor_node_round; registered_facts. Qed.
End registered.

(** ** No exception escapes the loop *)




(** ** A node marked connected holds a handle *)

Lemma wired_at_emit name es s : wired_at name s → wired_at name (emit es s).
Proof. done. Qed.

Lemma keeps_wired_logger name lv m : keeps (wired_at name) (logger lv m).
Proof. apply keeps_modify. intros s. apply wired_at_emit. Qed.

Lemma keeps_wired_sleep name t : keeps (wired_at name) (sleep t).
Proof. apply keeps_modify. intros s. apply wired_at_emit. Qed.

Lemma keeps_wired_check_for_fork name : keeps (wired_at name) check_for_fork.
Proof. intros s Hs. rewrite check_for_fork_report. by apply wired_at_emit. Qed.

Lemma keeps_wired_update name0 name f :
  (∀ n, wired n → wired (f n)) → keeps (wired_at name0) (update name f).
Proof.
  intros Hf s [Hr Hw]. split.
  - by apply registered_update.
  - by apply (keeps_update wired).
Qed.

Lemma keeps_wired_update_momentums name0 name h x now :
  keeps (wired_at name0) (update_momentums name h x now).
Proof.
  intros s [Hr Hw]. split; [by apply registered_update_momentums|].
  destruct (assoc name (nodes s)) as [n|] eqn:Hn.
  - rewrite (update_momentums_eq _ _ _ _ _ _ Hn). cbn.
    by apply assoc_alter_Forall.
  - by rewrite (update_momentums_missing _ _ _ _ _ Hn).
Qed.

Lemma keeps_wired_handle_disconnection name :
  keeps (wired_at name) (handle_disconnection name).
Proof.
  intros s [Hr Hw]. split; [by apply registered_handle_disconnection|].
  destruct Hr as [n Hn]. rewrite (handle_disconnection_eq _ _ _ Hn). cbn.
  by apply assoc_alter_Forall.
Qed.

Lemma keeps_wired_check_connection_health name now :
  keeps (wired_at name) (check_connection_health name now).
Proof.
  unfold check_connection_health.
  repeat keeps_step;
    first [apply keeps_wired_logger | apply keeps_wired_handle_disconnection].
Qed.

Lemma keeps_wired_connect_node name env :
  keeps (wired_at name) (connect_node name env).
Proof.
  intros s [Hr Hw]. split; [by apply registered_connect_node|].
  destruct Hr as [n Hn].
  destruct (connect_node_cases name env s n Hn) as (s' & -> & Hs').
  unfold every. cbn.
  destruct (acknowledged env) as [[h r]|]; destruct Hs' as [-> _];
    apply assoc_alter_Forall; try done.
  intros v _ _. by eexists.
Qed.

Lemma keeps_wired_receive name env : keeps (wired_at name) (receive name env).
Proof.
  unfold receive.
  repeat keeps_step;
    first [ apply keeps_wired_logger | apply keeps_wired_check_for_fork
          | apply keeps_wired_update_momentums
          | by apply keeps_wired_update ].
Qed.

Lemma keeps_wired_monitor_node_round name env :
  keeps (wired_at name) (monitor_node_round name env).
Proof.
  unfold monitor_node_round.
  repeat keeps_step;
    first [ apply keeps_wired_logger | apply keeps_wired_sleep
          | apply keeps_wired_connect_node
          | apply keeps_wired_check_connection_health
          | apply keeps_wired_receive
          | by apply keeps_wired_update ].
Qed.

Lemma called_wired s : called s → every wired s.
Proof.
  induction 1 as [|name env s _ IH Hr|name env s _ IH Hr|name now s _ IH Hr
                  |name s _ IH Hr|name h x now s _ IH Hr|s _ IH|h s _ IH].
  - unfold every, init, init_nodes, wired. cbn. by repeat constructor.
  - by apply (keeps_wired_monitor_node_round name env s).
  - by apply (keeps_wired_connect_node name env s).
  - by apply (keeps_wired_check_connection_health name now s).
  - by apply (keeps_wired_handle_disconnection name s).
  - by apply (keeps_wired_update_momentums name name h x now s).
  - rewrite check_for_fork_report. done.
  - done.
Qed.

Lemma called_passes name envs s :
  called s → registered name s → called (passes name envs s).
Proof.
  revert s. induction envs as [|env envs IH]; intros s Hs Hr; simpl; [done|].
  apply IH; [by constructor|]. by apply registered_monitor_node_round.
Qed.

(** X10.  After any sequence of method calls on registered nodes, a node
    that is marked connected holds a handle: [connect_node] stores the
    handle before it sets the flag, and disconnection handling clears the
    flag before it drops the handle. *)
Theorem connected_has_handle s name n :
  called s →
  assoc name (nodes s) = Some n →
  is_connected n = true →
  is_Some (websocket n).
Proof.
  intros Hs Hn. apply (every_assoc wired name s n); [|done].
  by apply called_wired.
Qed.

Lemma connected_has_handle_witness :
  ∃ n, assoc "hc1" (nodes (passes "hc1" seven_pushes init)) = Some n ∧
       is_connected n = true ∧ is_Some (websocket n).
Proof.
  eexists. split; [vm_compute; reflexivity|]. split; [reflexivity|].
  eapply (connected_has_handle (passes "hc1" seven_pushes init) "hc1").
  - apply called_passes; [apply called_init | by eexists].
  - vm_compute. reflexivity.
  - reflexivity.
Defined.

(** ** get_nodes: the snapshot *)

Lemma assoc_fmap {A B} (g : A → B) k (l : list (string * A)) :
  assoc k ((λ kv : string * A, (kv.1, g kv.2)) <$> l) = g <$> assoc k l.
Proof.
  induction l as [|[k' v] l IH]; csimpl; [done|].
  case_decide; [done|]. apply IH.
Qed.

Lemma last_items_fmap {A B} (g : A → B) k (l : list A) :
  last_items k (g <$> l) = g <$> last_items k l.
Proof. unfold last_items. by rewrite length_fmap, fmap_drop. Qed.

Lemma last_items_all {A} k (l : list A) :
  (length l ≤ k)%nat → last_items k l = l.
Proof.
  intros H. unfold last_items.
  by replace (length l - k)%nat with 0%nat by lia.
Qed.

(** X11.  [get_nodes] changes nothing in the monitor and logs two lines.
    In the dict it returns, the entry of a registered node carries the
    node's connected flag and its last five momentums in order, each with
    height, hash, timestamp and stale flag, never more than five; in every
    state of an execution these are all the momentums the node holds.
    Looking up a name that is not registered raises KeyError. *)
Theorem get_nodes_snapshot (sv : service) :
  monitor (get_nodes sv).2 = monitor sv ∧
  service_log (get_nodes sv).2 =
    service_log sv ++
      [(INFO, NodesRequested);
       (INFO, ReturningNodes (length (nodes (monitor sv))))] ∧
  (∀ name n s0,
     assoc name (nodes (monitor sv)) = Some n →
     ∃ entry,
       py_getitem (get_nodes sv).1 name s0 = (Ok entry, s0) ∧
       py_getitem entry "is_connected" s0 = (Ok (JBool (is_connected n)), s0) ∧
       py_getitem entry "momentums" s0 =
         (Ok (JArray (momentum_dict <$> last_items 5 (momentums n))), s0) ∧
       (length (momentum_dict <$> last_items 5 (momentums n)) ≤ 5)%nat ∧
       (reachable (monitor sv) → last_items 5 (momentums n) = momentums n)) ∧
  (∀ name s0,
     assoc name (nodes (monitor sv)) = None →
     py_getitem (get_nodes sv).1 name s0 = (Raise KeyError, s0)).
Proof.
  unfold get_nodes, service_logger. cbn [monitor service_log fst snd].
  split_and!.
  - done.
  - by rewrite length_fmap, <- app_assoc.
  - intros name n s0 Hn. exists (node_dict n). split_and!.
    + unfold py_getitem. by rewrite assoc_fmap, Hn.
    + done.
    + done.
    + rewrite length_fmap. apply last_items_length.
    + intros Hreach. apply last_items_all.
      apply (every_assoc within_bound name (monitor sv) n); [|done].
      by apply reachable_bounded.
  - intros name s0 Hn. unfold py_getitem. by rewrite assoc_fmap, Hn.
Qed.

(** X12.  After disconnection handling of a registered node, the snapshot
    reports that node as not connected and every one of its momentums as
    stale, with the heights, hashes and timestamps it reported before. *)
Theorem get_nodes_after_disconnection name s n log s0 :
  assoc name (nodes s) = Some n →
  ∃ entry,
    py_getitem (get_nodes (mkService (handle_disconnection name s).2 log)).1
      name s0 = (Ok entry, s0) ∧
    py_getitem entry "is_connected" s0 = (Ok (JBool false), s0) ∧
    py_getitem entry "momentums" s0 =
      (Ok (JArray (momentum_dict <$> (mark_stale <$> last_items 5 (momentums n)))),
       s0).
Proof.
  intros Hn. rewrite (handle_disconnection_eq _ _ _ Hn).
  exists (node_dict (disconnected n)). split_and!.
  - unfold get_nodes, py_getitem. cbn.
    by rewrite assoc_fmap, assoc_alter_eq, Hn.
  - done.
  - by rewrite <- last_items_fmap.
Qed.

Lemma get_nodes_after_disconnection_witness :
  ∃ entry,
    py_getitem (get_nodes (mkService (handle_disconnection "hc1" live).2 [])).1
      "hc1" init = (Ok entry, init) ∧
    py_getitem entry "is_connected" init = (Ok (JBool false), init) ∧
    py_getitem entry "momentums" init =
      (Ok (JArray (momentum_dict <$>
                     (mark_stale <$> last_items 5 (momentums live_node)))),
       init).
Proof.
  apply (get_nodes_after_disconnection "hc1" live live_node [] init).
  reflexivity.
Defined.

(** ** cleanup *)

Lemma cleanup_fold (r : registry) (sv : service) :
  nodes (monitor (foldl cleanup_node sv r)) = nodes (monitor sv) ∧
  trace (monitor (foldl cleanup_node sv r)) = trace (monitor sv) ∧
  closed (monitor (foldl cleanup_node sv r)) =
    closed (monitor sv) ∪ list_to_set (held_handles r) ∧
  ∃ lines,
    service_log (foldl cleanup_node sv r) = service_log sv ++ lines ∧
    Forall (λ l, ∃ name, l = (INFO, ClosedConnection name) ∧ name ∈ r.*1) lines ∧
    (length lines ≤ length r)%nat.
Proof.
  revert sv. induction r as [|[k n] r IH]; intros sv.
  - cbn. split_and!; try done.
    + apply set_eq. intros x. rewrite elem_of_union, elem_of_empty. tauto.
    + exists []. by rewrite app_nil_r.
  - cbn [foldl]. destruct (IH (cleanup_node sv (k, n)))
      as (Hn & Ht & Hc & lines & Hl & Hall & Hlen).
    assert (∀ name, name ∈ r.*1 → name ∈ ((k, n) :: r).*1) as Hin.
    { intros name ?. csimpl. by right. }
    assert (Forall (λ l, ∃ name, l = (INFO, ClosedConnection name) ∧
                                 name ∈ ((k, n) :: r).*1) lines) as Hall'.
    { eapply Forall_impl; [exact Hall|]. intros l (name & -> & ?). eauto. }
    rewrite Hn, Ht, Hc, Hl. clear Hn Ht Hc Hl.
    unfold cleanup_node, held_handles. cbn [snd fst omap list_omap].
    destruct (websocket n) as [h|] eqn:Hw; csimpl; rewrite ?Hw.
    + case_bool_decide as Hclosed; cbn [negb].
      * split_and!; try done.
        -- apply set_eq. intros x.
           rewrite !elem_of_union, elem_of_singleton. split; [tauto|].
           intros [?|[->|?]]; tauto.
        -- exists lines. split_and!; [done | done | simpl; lia].
      * cbn. split_and!; try done.
        -- apply set_eq. intros x.
           rewrite !elem_of_union, elem_of_singleton. tauto.
        -- exists ((INFO, ClosedConnection k) :: lines).
           rewrite <- app_assoc. split_and!; [done | | simpl; lia].
           constructor; [|done]. exists k. split; [done|]. csimpl. by left.
    + split_and!; try done.
      exists lines. split_and!; [done | done | simpl; lia].
Qed.

(** X13.  [cleanup] closes every handle held by a node and no other: the
    closed handles afterwards are those closed before together with the
    held ones.  It leaves the registry as it was, so a node stays marked
    connected and keeps its handle and subscription id.  It logs the
    "Cleaning up" line followed by at most one "Closed connection" line per
    node. *)
Theorem cleanup_closes_all (sv : service) :
  nodes (monitor (cleanup sv)) = nodes (monitor sv) ∧
  trace (monitor (cleanup sv)) = trace (monitor sv) ∧
  closed (monitor (cleanup sv)) =
    closed (monitor sv) ∪ list_to_set (held_handles (nodes (monitor sv))) ∧
  (∀ name n h,
     assoc name (nodes (monitor sv)) = Some n →
     websocket n = Some h → h ∈ closed (monitor (cleanup sv))) ∧
  ∃ lines,
    service_log (cleanup sv) = service_log sv ++ (INFO, CleaningUp) :: lines ∧
    Forall (λ l, ∃ name, l = (INFO, ClosedConnection name) ∧
                         name ∈ (nodes (monitor sv)).*1) lines ∧
    (length lines ≤ length (nodes (monitor sv)))%nat.
Proof.
  unfold cleanup.
  destruct (cleanup_fold (nodes (monitor sv)) (service_logger INFO CleaningUp sv))
    as (Hn & Ht & Hc & lines & Hl & Hall & Hlen).
  cbn [service_logger monitor service_log] in *.
  split_and!; try done.
  - intros name n h Hn' Hw. rewrite Hc. apply elem_of_union. right.
    apply elem_of_list_to_set. unfold held_handles.
    apply list_elem_of_omap. exists (name, n). split; [|done].
    by apply assoc_elem_of.
  - exists lines. rewrite Hl, <- app_assoc. done.
Qed.

Lemma cleanup_nothing_open (r : registry) (sv : service) :
  (∀ h, h ∈ held_handles r → h ∈ closed (monitor sv)) →
  foldl cleanup_node sv r = sv.
Proof.
  induction r as [|[k n] r IH]; intros Hheld; [done|].
  cbn [foldl]. unfold held_handles in *. cbn [omap list_omap snd] in Hheld.
  unfold cleanup_node at 2. cbn [snd fst].
  destruct (websocket n) as [h|].
  - rewrite bool_decide_eq_true_2 by (apply Hheld; left).
    cbn [negb]. apply IH. intros h' ?. apply Hheld. by right.
  - by apply IH.
Qed.

(** X14.  A second [cleanup] finds nothing left to close: it only logs the
    "Cleaning up" line again. *)
Theorem cleanup_twice (sv : service) :
  cleanup (cleanup sv) = service_logger INFO CleaningUp (cleanup sv).
Proof.
  destruct (cleanup_fold (nodes (monitor sv)) (service_logger INFO CleaningUp sv))
    as (Hn & _ & Hc & _).
  cbn [service_logger monitor] in Hn, Hc.
  unfold cleanup at 1. cbn [service_logger monitor].
  fold (cleanup sv) in Hn, Hc. rewrite Hn.
  apply cleanup_nothing_open. cbn [service_logger monitor].
  intros h Hh. rewrite Hc. apply elem_of_union. right.
  by apply elem_of_list_to_set.
Qed.

(** ** config.py *)



Lemma split_nonempty sep s : split sep s ≠ [].
Proof.
  destruct s as [|c rest]; simpl; [done|].
  destruct (Ascii.eqb c sep); [done|]. by destruct (split sep rest).
Qed.

Lemma concat_cons sep w ws :
  ws ≠ [] →
  String.concat sep (w :: ws) = (w +:+ sep +:+ String.concat sep ws)%string.
Proof. by destruct ws. Qed.

Lemma concat_split sep s :
  String.concat (String sep EmptyString) (split sep s) = s.
Proof.
  induction s as [|c rest IH]; simpl; [done|].
  destruct (Ascii.eqb c sep) eqn:Hc.
  - apply Ascii.eqb_eq in Hc as ->.
    rewrite concat_cons by apply split_nonempty. simpl. by rewrite IH.
  - pose proof (split_nonempty sep rest) as Hne.
    destruct (split sep rest) as [|w ws]; [done|].
    destruct ws as [|w' ws]; simpl in *; by rewrite <- IH.
Qed.

Lemma split_separates sep s :
  Forall (λ w, sep ∉ String.list_ascii_of_string w) (split sep s).
Proof.
  induction s as [|c rest IH]; simpl.
  - constructor; [|done]. simpl. by intros ?%elem_of_nil.
  - destruct (Ascii.eqb c sep) eqn:Hc.
    + constructor; [|done]. simpl. by intros ?%elem_of_nil.
    + apply Ascii.eqb_neq in Hc.
      destruct (split sep rest) as [|w ws]; simpl.
      * constructor; [|done]. simpl.
        intros [->|?%elem_of_nil]%elem_of_cons; done.
      * apply Forall_cons in IH as [Hw Hws]. constructor; [|done]. simpl.
        intros [->|?]%elem_of_cons; done.
Qed.

(** X16.  [CORS_ORIGINS] is never the empty list (an empty variable gives
    one empty origin), none of its items holds a comma, and joined with
    commas the items give back the value of the variable, or "*" when it is
    not set. *)
Theorem cors_origins_split (environ : gmap string string) :
  CORS_ORIGINS environ ≠ [] ∧
  Forall (λ origin, ","%char ∉ String.list_ascii_of_string origin) (CORS_ORIGINS environ) ∧
  String.concat "," (CORS_ORIGINS environ) = getenv environ "CORS_ORIGINS" "*" ∧
  (environ !! "CORS_ORIGINS"%string = Some ""%string →
   CORS_ORIGINS environ = [""%string]) ∧
  (environ !! "CORS_ORIGINS"%string = None → CORS_ORIGINS environ = ["*"%string]).
Proof.
  unfold CORS_ORIGINS. split_and!.
  - apply split_nonempty.
  - apply split_separates.
  - apply concat_split.
  - unfold getenv. by intros ->.
  - unfold getenv. by intros ->.
Qed.

(** ** monitor_node: a pass on a node that is not connected *)

Lemma sleeps_app t1 t2 : sleeps (t1 ++ t2) = (sleeps t1 + sleeps t2)%nat.
Proof. unfold sleeps. by rewrite List.filter_app, length_app. Qed.

Lemma slept_logger k lv m : keeps (slept k) (logger lv m).
Proof.
  apply keeps_modify. intros s Hs. unfold slept, emit in *. cbn [trace].
  rewrite sleeps_app, Hs. unfold sleeps. simpl. lia.
Qed.

Lemma slept_update k name f : keeps (slept k) (update name f).
Proof.
  apply keeps_bind; [apply keeps_node|]. intros _. by apply keeps_modify.
Qed.

Lemma slept_handle_disconnection k name :
  keeps (slept k) (handle_disconnection name).
Proof.
  unfold handle_disconnection.
  repeat keeps_step;
    first [apply slept_update | by apply keeps_modify].
Qed.

Lemma slept_connect_node k name env : keeps (slept k) (connect_node name env).
Proof.
  unfold connect_node.
  repeat keeps_step;
    first [ apply slept_logger | apply slept_update
          | apply slept_handle_disconnection ].
Qed.

(** A pass whose connection attempt is not acknowledged. *)
Lemma round_refused name env s n :
  assoc name (nodes s) = Some n →
  is_connected n = false →
  refused env →
  monitor_node_round name env s =
    (Ok Continue, emit [Slept 5] (connect_node name (connecting env) s).2) ∧
  nodes (monitor_node_round name env s).2 =
    assoc_alter disconnected name (nodes s) ∧
  sleeps (trace (monitor_node_round name env s).2) = S (sleeps (trace s)).
Proof.
  intros Hn Hc [Hshut Hack].
  destruct (connect_node_cases name (connecting env) s n Hn) as (s' & Hrun & Hs').
  rewrite Hack in Hs'. destruct Hs' as [Hnodes _].
  assert (monitor_node_round name env s = (Ok Continue, emit [Slept 5] s')) as Hpass.
  { unfold monitor_node_round, try_except at 1. rewrite Hshut.
    unfold bind at 1. rewrite (node_eq _ _ _ Hn), Hc. cbn [negb].
    unfold bind at 1 2. rewrite Hrun.
    assert (assoc name (nodes s') = Some (disconnected n)) as Hn'
      by by rewrite Hnodes, assoc_alter_eq, Hn.
    unfold bind at 1. rewrite (node_eq _ _ _ Hn'). cbn [is_connected disconnected negb].
    done. }
  rewrite Hpass, Hrun. cbn [snd]. split_and!; [done | done |].
  unfold emit. cbn [trace]. rewrite sleeps_app.
  pose proof (slept_connect_node (sleeps (trace s)) name (connecting env) s eq_refl)
    as Hsl.
  rewrite Hrun in Hsl. unfold slept in Hsl. cbn [snd] in Hsl. rewrite Hsl.
  unfold sleeps. simpl. lia.
Qed.

(** X17.  A pass on a registered node that is not connected, with no
    shutdown, whose connection attempt is not acknowledged: the pass is the
    connection attempt followed by one sleep of 5 seconds.  The node ends as
    after disconnection handling, [recv] is not called (the answer prepared
    for it plays no part) and the health check is skipped. *)
Theorem monitor_node_round_refused name env s n :
  assoc name (nodes s) = Some n →
  is_connected n = false →
  refused env →
  monitor_node_round name env s =
    (Ok Continue, emit [Slept 5] (connect_node name (connecting env) s).2) ∧
  nodes (monitor_node_round name env s).2 =
    assoc_alter disconnected name (nodes s) ∧
  sleeps (trace (monitor_node_round name env s).2) = S (sleeps (trace s)).
Proof. apply round_refused. Qed.

Lemma monitor_node_round_refused_witness :
  monitor_node_round "zenonhub" (hd shutdown_pass unreachable_peer) live =
    (Ok Continue,
     emit [Slept 5]
       (connect_node "zenonhub" (connecting (hd shutdown_pass unreachable_peer))
          live).2) ∧
  nodes (monitor_node_round "zenonhub" (hd shutdown_pass unreachable_peer) live).2 =
    assoc_alter disconnected "zenonhub" (nodes live) ∧
  sleeps (trace (monitor_node_round "zenonhub"
                   (hd shutdown_pass unreachable_peer) live).2) =
    S (sleeps (trace live)).
Proof.
  apply (monitor_node_round_refused "zenonhub" (hd shutdown_pass unreachable_peer)
           live NodeState_default); [reflexivity | reflexivity | by split].
Defined.

(** X18.  There is no retry limit: as long as no shutdown is signalled and
    no attempt is acknowledged, every pass makes one attempt and sleeps
    once, and the loop is still running after any number of them, with the
    node not connected. *)
Theorem monitor_node_retries name envs s n :
  assoc name (nodes s) = Some n →
  is_connected n = false →
  Forall refused envs →
  ∃ s' n',
    monitor_node name envs s = (Ok tt, s') ∧
    assoc name (nodes s') = Some n' ∧
    is_connected n' = false ∧
    momentums n' = (if envs is [] then momentums n else mark_stale <$> momentums n) ∧
    sleeps (trace s') = (sleeps (trace s) + length envs)%nat.
Proof.
  revert s n. induction envs as [|env envs IH]; intros s n Hn Hc Hall.
  - exists s, n. cbn. split_and!; first [done | lia].
  - apply Forall_cons in Hall as [Henv Hall].
    destruct (round_refused name env s n Hn Hc Henv)
      as (Hpass & Hnodes & Hsl).
    rewrite Hpass in Hnodes, Hsl. cbn [snd] in Hnodes, Hsl.
    set (s1 := emit [Slept 5] (connect_node name (connecting env) s).2) in *.
    assert (assoc name (nodes s1) = Some (disconnected n)) as Hn1
      by by rewrite Hnodes, assoc_alter_eq, Hn.
    destruct (IH s1 (disconnected n) Hn1 eq_refl Hall)
      as (s' & n' & Hrun & Hn' & Hc' & Hm' & Hsl').
    exists s', n'. cbn [monitor_node]. unfold bind. rewrite Hpass.
    split_and!; [done | done | done | |].
    + rewrite Hm'. cbn [momentums disconnected].
      destruct envs; [done|].
      rewrite <- list_fmap_compose. by apply list_fmap_ext.
    + rewrite Hsl', Hsl. simpl. lia.
Qed.

Lemma monitor_node_retries_witness :
  ∃ s' n',
    monitor_node "zenonhub" unreachable_peer live = (Ok tt, s') ∧
    assoc "zenonhub" (nodes s') = Some n' ∧
    is_connected n' = false ∧
    momentums n' = mark_stale <$> momentums NodeState_default ∧
    sleeps (trace s') = (sleeps (trace live) + 3)%nat.
Proof.
  apply (monitor_node_retries "zenonhub" unreachable_peer live NodeState_default);
    [reflexivity | reflexivity |].
  repeat constructor.
Defined.

(** ** Names that are not registered *)

(** X19.  With a name that is not a key of the registry, disconnection
    handling, the health check and [update_momentums] raise KeyError and
    leave the state as it was; a pass of the loop raises KeyError out of its
    handler after logging the error, unless the shutdown flag is found set
    there, and changes no node. *)
Theorem unregistered_name name s :
  assoc name (nodes s) = None →
  handle_disconnection name s = (Raise KeyError, s) ∧
  (∀ now, check_connection_health name now s = (Raise KeyError, s)) ∧
  (∀ h x now, update_momentums name h x now s = (Raise KeyError, s)) ∧
  (∀ env,
     shutdown_at_top env = false →
     monitor_node_round name env s =
       if shutdown_in_handler env then (Ok Continue, s)
       else (Raise KeyError, emit [Logged ERROR (MonitorError name KeyError)] s)).
Proof.
  intros Hn. split_and!.
  - by apply handle_disconnection_missing.
  - intros now. unfold check_connection_health, bind.
    by rewrite (node_missing _ _ Hn).
  - intros h x now. by apply update_momentums_missing.
  - intros env Hshut. unfold monitor_node_round, try_except. rewrite Hshut.
    unfold bind at 1. rewrite (node_missing _ _ Hn).
    destruct (shutdown_in_handler env); cbn [negb]; [done|].
    rewrite logger_then. unfold bind.
    by rewrite update_missing.
Qed.

Lemma unregistered_name_witness :
  handle_disconnection "hc2" live = (Raise KeyError, live) ∧
  (∀ now, check_connection_health "hc2" now live = (Raise KeyError, live)) ∧
  (∀ h x now, update_momentums "hc2" h x now live = (Raise KeyError, live)) ∧
  (∀ env,
     shutdown_at_top env = false →
     monitor_node_round "hc2" env live =
       if shutdown_in_handler env then (Ok Continue, live)
       else (Raise KeyError, emit [Logged ERROR (MonitorError "hc2" KeyError)] live)).
Proof. apply (unregistered_name "hc2" live). reflexivity. Defined.
